(** * Remote Port device adapters: memory master, memory slave, GPIO

    A shallow embedding of

      - include/hw/remote-port-proto.h      (packet structures, flags)
      - hw/core/remote-port-memory-master.c (rp_io_read, rp_io_write)
      - hw/core/remote-port-memory-slave.c  (rp_cmd_rw)
      - hw/core/remote-port-gpio.c          (rp_gpio_handler,
                                             rp_gpio_interrupt,
                                             rp_gpio_realize)

    Machine integers are [Z] with the wrap-around written out.  Bytes are
    [Z] in 0..255.  The device functions run in a small monad over the
    state of the machine; every call into the Remote Port adaptor is
    appended to a call log, so that the order of the calls can be stated. *)

From Stdlib Require Import ZArith Lia List Bool.
From stdpp Require Import base option list.
Import ListNotations.

Local Open Scope Z_scope.

(* ------------------------------------------------------------------ *)
(** * Machine integers                                                  *)
(* ------------------------------------------------------------------ *)

(** Conversion to [uint8_t], [uint32_t], [uint64_t]. *)
Definition u8 (x : Z) : Z := x mod 2 ^ 8.
Definition u32 (x : Z) : Z := x mod 2 ^ 32.
Definition u64 (x : Z) : Z := x mod 2 ^ 64.

(** Conversion to [int] (32 bits) and [int64_t], two's complement. *)
Definition s32 (x : Z) : Z := (x + 2 ^ 31) mod 2 ^ 32 - 2 ^ 31.
Definition s64 (x : Z) : Z := (x + 2 ^ 63) mod 2 ^ 64 - 2 ^ 63.

(** [a << n] where [a] has type [int].  A count outside 0..31 has no
    defined result.  A result that does not fit wraps in two's
    complement, which is what GCC and Clang document for signed shifts
    (and QEMU is built with -fwrapv). *)
Definition shl_int (a n : Z) : option Z :=
  if (0 <=? n) && (n <? 32) then Some (s32 (Z.shiftl a n)) else None.

(** A byte. *)
Definition is_byte (b : Z) : Prop := 0 <= b < 256.

(* ------------------------------------------------------------------ *)
(** * Byte order                                                        *)
(* ------------------------------------------------------------------ *)

(** The [n] low bytes of [x], least significant first. *)
Fixpoint le_bytes (n : nat) (x : Z) : list Z :=
  match n with
  | O => []
  | S n' => x mod 256 :: le_bytes n' (x / 256)
  end.

(** The [n] low bytes of [x], most significant first (network order). *)
Definition be_bytes (n : nat) (x : Z) : list Z := rev (le_bytes n x).

(** The number whose bytes, least significant first, are [bs]. *)
Fixpoint of_le (bs : list Z) : Z :=
  match bs with
  | [] => 0
  | b :: bs' => b + 256 * of_le bs'
  end.

Definition of_be (bs : list Z) : Z := of_le (rev bs).

(** Reverse the [n] bytes of [x] (bswap32 for [n = 4], bswap64 for 8). *)
Definition bswap (n : nat) (x : Z) : Z := of_le (be_bytes n x).

(* ------------------------------------------------------------------ *)
(** * remote-port-proto.h                                               *)
(* ------------------------------------------------------------------ *)

Definition RP_CMD_nop : Z := 0.
Definition RP_CMD_hello : Z := 1.
Definition RP_CMD_cfg : Z := 2.
Definition RP_CMD_read : Z := 3.
Definition RP_CMD_write : Z := 4.
Definition RP_CMD_interrupt : Z := 5.
Definition RP_CMD_sync : Z := 6.
Definition RP_CMD_max : Z := 6.

Definition RP_PKT_FLAGS_optional : Z := Z.shiftl 1 0.
Definition RP_PKT_FLAGS_response : Z := Z.shiftl 1 1.

(** struct rp_pkt_hdr: five [uint32_t], packed. *)
Record rp_pkt_hdr := {
  hdr_cmd : Z;
  hdr_len : Z;
  hdr_id : Z;
  hdr_flags : Z;
  hdr_dev : Z
}.

(** struct rp_pkt_busaccess, packed. *)
Record rp_pkt_busaccess := {
  ba_hdr : rp_pkt_hdr;
  timestamp : Z;      (* uint64_t *)
  attributes : Z;     (* uint64_t *)
  addr : Z;           (* uint64_t *)
  len : Z;            (* uint32_t, length in bytes *)
  width : Z;          (* uint32_t *)
  stream_width : Z    (* uint32_t *)
}.

(** struct rp_pkt_interrupt, packed. *)
Record rp_pkt_interrupt := {
  irq_hdr : rp_pkt_hdr;
  irq_timestamp : Z;  (* uint64_t *)
  vector : Z;         (* uint64_t *)
  line : Z;           (* uint32_t *)
  val : Z             (* uint8_t *)
}.

(** sizeof (struct rp_pkt_hdr), sizeof (struct rp_pkt_busaccess),
    sizeof (struct rp_pkt_interrupt): the structures are packed. *)
Definition sizeof_rp_pkt_hdr : Z := 5 * 4.
Definition sizeof_rp_pkt_busaccess : Z := sizeof_rp_pkt_hdr + 3 * 8 + 3 * 4.
Definition sizeof_rp_pkt_interrupt : Z := sizeof_rp_pkt_hdr + 2 * 8 + 4 + 1.

(** A packet in a buffer: the bus-access view of [struct rp_pkt] and the
    bytes that follow it, which is where [rp_busaccess_dataptr (pkt)]
    and [(uint8_t * ) (pkt + 1)] point (the union [struct rp_pkt] is as
    large as its largest member, [struct rp_pkt_busaccess]).  This is
    what a [RemotePortDynPkt] holds, and what a device callback
    receives. *)
Record RemotePortDynPkt := {
  pkt : rp_pkt_busaccess;
  trailing : list Z
}.

(** rp_busaccess_dataptr: right after the packet. *)
Definition rp_busaccess_dataptr (p : RemotePortDynPkt) : list Z := trailing p.

Section Host.

(** The byte order of the host QEMU runs on. *)
Variable host_big_endian : bool.

(** htobe32, htobe64, be32_to_cpu, be64_to_cpu: the identity on a
    big-endian host, a byte swap on a little-endian one. *)
Definition htobe32 (x : Z) : Z := if host_big_endian then x else bswap 4 x.
Definition htobe64 (x : Z) : Z := if host_big_endian then x else bswap 8 x.
Definition be32_to_cpu (x : Z) : Z := htobe32 x.
Definition be64_to_cpu (x : Z) : Z := htobe64 x.

(** The bytes of an [n]-byte integer field in the host's memory. *)
Definition mem_int (n : nat) (x : Z) : list Z :=
  if host_big_endian then be_bytes n x else le_bytes n x.

(** The bytes of the packed structures in memory, in address order. *)
Definition hdr_bytes (h : rp_pkt_hdr) : list Z :=
  mem_int 4 (hdr_cmd h) ++ mem_int 4 (hdr_len h) ++ mem_int 4 (hdr_id h)
  ++ mem_int 4 (hdr_flags h) ++ mem_int 4 (hdr_dev h).

Definition busaccess_bytes (p : rp_pkt_busaccess) : list Z :=
  hdr_bytes (ba_hdr p) ++ mem_int 8 (timestamp p) ++ mem_int 8 (attributes p)
  ++ mem_int 8 (addr p) ++ mem_int 4 (len p) ++ mem_int 4 (width p)
  ++ mem_int 4 (stream_width p).

Definition interrupt_bytes (p : rp_pkt_interrupt) : list Z :=
  hdr_bytes (irq_hdr p) ++ mem_int 8 (irq_timestamp p) ++ mem_int 8 (vector p)
  ++ mem_int 4 (line p) ++ [val p].

(** ** The encoders of remote-port-proto.c *)

(** Modelled from the spec: rp_encode_hdr is declared in
    remote-port-proto.h and defined in remote-port-proto.c, which is not
    among the sources.  The header is command, length, id, flags, device,
    each a 32-bit integer stored in network byte order. *)
Definition rp_encode_hdr (cmd id dev len flags : Z) : rp_pkt_hdr :=
  {| hdr_cmd := htobe32 (u32 cmd);
     hdr_len := htobe32 (u32 len);
     hdr_id := htobe32 (u32 id);
     hdr_flags := htobe32 (u32 flags);
     hdr_dev := htobe32 (u32 dev) |}.

(** Modelled from the spec: the bus-access payload shared by the four
    bus-access encoders of remote-port-proto.c (timestamp, attributes,
    address, length, beat width, stream width, in network byte order).
    The attribute parameter of the encoders is a [uint32_t]. *)
Definition rp_encode_busaccess_common (h : rp_pkt_hdr)
    (clk addr attr size width stream_width : Z) : rp_pkt_busaccess :=
  {| ba_hdr := h;
     timestamp := htobe64 (u64 clk);
     attributes := htobe64 (u32 attr);
     addr := htobe64 (u64 addr);
     len := htobe32 (u32 size);
     width := htobe32 (u32 width);
     stream_width := htobe32 (u32 stream_width) |}.

(** Modelled from the spec: rp_encode_read of remote-port-proto.c.  The
    header length is the payload that follows the header; a read request
    carries no data.  The value returned is the number of bytes of the
    request, which rp_io_read hands to rp_write. *)
Definition rp_encode_read (id dev clk addr attr size width stream_width : Z)
    : rp_pkt_busaccess * Z :=
  (rp_encode_busaccess_common
     (rp_encode_hdr RP_CMD_read id dev
        (sizeof_rp_pkt_busaccess - sizeof_rp_pkt_hdr) 0)
     clk addr attr size width stream_width,
   sizeof_rp_pkt_busaccess).

(** Modelled from the spec: rp_encode_read_resp of remote-port-proto.c.
    A read response is followed by [size] bytes of data; the value
    returned counts them, as rp_cmd_rw asserts. *)
Definition rp_encode_read_resp (id dev clk addr attr size width stream_width : Z)
    : rp_pkt_busaccess * Z :=
  (rp_encode_busaccess_common
     (rp_encode_hdr RP_CMD_read id dev
        (sizeof_rp_pkt_busaccess - sizeof_rp_pkt_hdr + u32 size)
        RP_PKT_FLAGS_response)
     clk addr attr size width stream_width,
   sizeof_rp_pkt_busaccess + u32 size).

(** Modelled from the spec: rp_encode_write of remote-port-proto.c.  A
    write request is followed by [size] bytes of data; the value
    returned is the size of the fixed part, to which rp_io_write adds
    [size]. *)
Definition rp_encode_write (id dev clk addr attr size width stream_width : Z)
    : rp_pkt_busaccess * Z :=
  (rp_encode_busaccess_common
     (rp_encode_hdr RP_CMD_write id dev
        (sizeof_rp_pkt_busaccess - sizeof_rp_pkt_hdr + u32 size) 0)
     clk addr attr size width stream_width,
   sizeof_rp_pkt_busaccess).

(** Modelled from the spec: rp_encode_write_resp of remote-port-proto.c.
    A write response carries no data; the value returned is the size of
    the fixed part, as rp_cmd_rw asserts. *)
Definition rp_encode_write_resp (id dev clk addr attr size width stream_width : Z)
    : rp_pkt_busaccess * Z :=
  (rp_encode_busaccess_common
     (rp_encode_hdr RP_CMD_write id dev
        (sizeof_rp_pkt_busaccess - sizeof_rp_pkt_hdr)
        RP_PKT_FLAGS_response)
     clk addr attr size width stream_width,
   sizeof_rp_pkt_busaccess).

(** Modelled from the spec: rp_encode_interrupt of remote-port-proto.c
    (timestamp, vector, line in network byte order, and the value, one
    byte). *)
Definition rp_encode_interrupt (id dev clk line vector val : Z)
    : rp_pkt_interrupt * Z :=
  ({| irq_hdr := rp_encode_hdr RP_CMD_interrupt id dev
                   (sizeof_rp_pkt_interrupt - sizeof_rp_pkt_hdr) 0;
      irq_timestamp := htobe64 (u64 clk);
      vector := htobe64 (u64 vector);
      line := htobe32 (u32 line);
      val := u8 val |},
   sizeof_rp_pkt_interrupt).

(* ------------------------------------------------------------------ *)
(** * The machine and the calls into the Remote Port adaptor            *)
(* ------------------------------------------------------------------ *)

(** The calls a device makes into remote-port.c and remote-port-proto.c,
    with the arguments that matter. *)
Inductive call :=
  | Call_rp_normalized_vmclk
  | Call_rp_new_id
  | Call_rp_encode (cmd : Z) (id : Z) (response : bool)
  | Call_rp_rsp_mutex_lock
  | Call_rp_write (bytes : list Z)
  | Call_rp_wait_resp
  | Call_rp_dpkt_invalidate
  | Call_rp_rsp_mutex_unlock
  | Call_rp_sync_vmclock (lclk rclk : Z)
  | Call_rp_restart_sync_timer
  | Call_rp_leave_iothread
  | Call_dma_memory_rw (addr len : Z) (is_write : bool).

(** The state the devices act on: the adaptor [s->rp] as far as a device
    observes it, the global address space, and the log of the calls. *)
Record Machine := {
  vm_clk : Z;                          (* the host's virtual clock *)
  clk_base : Z;                        (* peer.clk_base *)
  next_id : Z;                         (* the adaptor's id generator *)
  rsp_mutex : bool;                    (* the response mutex is held *)
  chr_out : list Z;                    (* bytes written to the peer *)
  rsp_inbox : list RemotePortDynPkt;   (* responses the peer delivers *)
  peer_clk : Z;                        (* the tracked peer clock *)
  sync_timer_base : Z;                 (* when the sync timer was restarted *)
  address_space_memory : Z -> Z;       (* guest memory, byte per address *)
  calls : list call
}.

Definition set_next_id (v : Z) (m : Machine) : Machine :=
  {| vm_clk := vm_clk m; clk_base := clk_base m; next_id := v;
     rsp_mutex := rsp_mutex m; chr_out := chr_out m;
     rsp_inbox := rsp_inbox m; peer_clk := peer_clk m;
     sync_timer_base := sync_timer_base m;
     address_space_memory := address_space_memory m; calls := calls m |}.

Definition set_rsp_mutex (v : bool) (m : Machine) : Machine :=
  {| vm_clk := vm_clk m; clk_base := clk_base m; next_id := next_id m;
     rsp_mutex := v; chr_out := chr_out m;
     rsp_inbox := rsp_inbox m; peer_clk := peer_clk m;
     sync_timer_base := sync_timer_base m;
     address_space_memory := address_space_memory m; calls := calls m |}.

Definition set_chr_out (v : list Z) (m : Machine) : Machine :=
  {| vm_clk := vm_clk m; clk_base := clk_base m; next_id := next_id m;
     rsp_mutex := rsp_mutex m; chr_out := v;
     rsp_inbox := rsp_inbox m; peer_clk := peer_clk m;
     sync_timer_base := sync_timer_base m;
     address_space_memory := address_space_memory m; calls := calls m |}.

Definition set_rsp_inbox (v : list RemotePortDynPkt) (m : Machine) : Machine :=
  {| vm_clk := vm_clk m; clk_base := clk_base m; next_id := next_id m;
     rsp_mutex := rsp_mutex m; chr_out := chr_out m;
     rsp_inbox := v; peer_clk := peer_clk m;
     sync_timer_base := sync_timer_base m;
     address_space_memory := address_space_memory m; calls := calls m |}.

Definition set_peer_clk (v : Z) (m : Machine) : Machine :=
  {| vm_clk := vm_clk m; clk_base := clk_base m; next_id := next_id m;
     rsp_mutex := rsp_mutex m; chr_out := chr_out m;
     rsp_inbox := rsp_inbox m; peer_clk := v;
     sync_timer_base := sync_timer_base m;
     address_space_memory := address_space_memory m; calls := calls m |}.

Definition set_sync_timer_base (v : Z) (m : Machine) : Machine :=
  {| vm_clk := vm_clk m; clk_base := clk_base m; next_id := next_id m;
     rsp_mutex := rsp_mutex m; chr_out := chr_out m;
     rsp_inbox := rsp_inbox m; peer_clk := peer_clk m;
     sync_timer_base := v;
     address_space_memory := address_space_memory m; calls := calls m |}.

Definition set_address_space_memory (v : Z -> Z) (m : Machine) : Machine :=
  {| vm_clk := vm_clk m; clk_base := clk_base m; next_id := next_id m;
     rsp_mutex := rsp_mutex m; chr_out := chr_out m;
     rsp_inbox := rsp_inbox m; peer_clk := peer_clk m;
     sync_timer_base := sync_timer_base m;
     address_space_memory := v; calls := calls m |}.

Definition set_calls (v : list call) (m : Machine) : Machine :=
  {| vm_clk := vm_clk m; clk_base := clk_base m; next_id := next_id m;
     rsp_mutex := rsp_mutex m; chr_out := chr_out m;
     rsp_inbox := rsp_inbox m; peer_clk := peer_clk m;
     sync_timer_base := sync_timer_base m;
     address_space_memory := address_space_memory m; calls := v |}.

(** The assertions of the three devices. *)
Inductive assertion :=
  | assert_rsp_id          (* rsp.pkt->hdr.id == be32_to_cpu (pkt.hdr.id) *)
  | assert_size            (* size <= 8 *)
  | assert_width           (* pkt->busaccess.width == 0 *)
  | assert_stream_width    (* pkt->busaccess.stream_width == pkt->busaccess.len *)
  | assert_not_response    (* !(pkt->hdr.flags & RP_PKT_FLAGS_response) *)
  | assert_enclen.         (* enclen == pktlen *)

(** How a device function ends: it returns, an assertion aborts the
    process, the caller stays blocked (a mutex that is held, a response
    that never comes), or the C code has no defined behaviour. *)
Inductive outcome (A : Type) :=
  | Returned (a : A)
  | AssertionFailed (which : assertion)
  | Blocked
  | Undefined.

#[global] Arguments Returned {A} a.
#[global] Arguments AssertionFailed {A} which.
#[global] Arguments Blocked {A}.
#[global] Arguments Undefined {A}.

(** Device code: a state transformer that may fail to return. *)
Definition M (A : Type) : Type := Machine -> outcome A * Machine.

Definition ret {A} (a : A) : M A := fun m => (Returned a, m).

Definition bind {A B} (c : M A) (k : A -> M B) : M B := fun m =>
  match c m with
  | (Returned a, m') => k a m'
  | (AssertionFailed w, m') => (AssertionFailed w, m')
  | (Blocked, m') => (Blocked, m')
  | (Undefined, m') => (Undefined, m')
  end.

Notation "x <- c ;; k" := (bind c (fun x => k))
  (at level 100, c at next level, right associativity).
Notation "c ;;; k" := (bind c (fun _ => k))
  (at level 100, right associativity).

(** assert (b). *)
Definition assert (b : bool) (which : assertion) : M unit := fun m =>
  if b then (Returned tt, m) else (AssertionFailed which, m).

(** A step whose C has no defined behaviour where [o] is [None]. *)
Definition defined {A} (o : option A) : M A := fun m =>
  match o with
  | Some a => (Returned a, m)
  | None => (Undefined, m)
  end.

Definition log (c : call) : M unit := fun m =>
  (Returned tt, set_calls (calls m ++ [c]) m).

(** ** remote-port.c *)

(** Modelled from the spec: rp_normalized_vmclk of remote-port.c, which
    is not among the sources: the local clock minus the clock base. *)
Definition rp_normalized_vmclk : M Z :=
  log Call_rp_normalized_vmclk ;;;
  fun m => (Returned (s64 (vm_clk m - clk_base m)), m).

(** Modelled from the spec: rp_new_id of remote-port.c: the next id of
    the channel's generator, a [uint32_t]. *)
Definition rp_new_id : M Z :=
  log Call_rp_new_id ;;;
  fun m => (Returned (next_id m), set_next_id (u32 (next_id m + 1)) m).

(** Modelled from the spec: rp_rsp_mutex_lock of remote-port.c.  A
    caller that finds the mutex held waits for it. *)
Definition rp_rsp_mutex_lock : M unit :=
  log Call_rp_rsp_mutex_lock ;;;
  fun m => if rsp_mutex m then (Blocked, m)
           else (Returned tt, set_rsp_mutex true m).

(** Modelled from the spec: rp_rsp_mutex_unlock of remote-port.c. *)
Definition rp_rsp_mutex_unlock : M unit :=
  log Call_rp_rsp_mutex_unlock ;;;
  fun m => (Returned tt, set_rsp_mutex false m).

(** Modelled from the spec: rp_write of remote-port.c: the bytes go to
    the transport, in order. *)
Definition rp_write (bytes : list Z) : M unit :=
  log (Call_rp_write bytes) ;;;
  fun m => (Returned tt, set_chr_out (chr_out m ++ bytes) m).

(** Modelled from the spec: rp_wait_resp of remote-port.c: the caller is
    suspended until the peer's next response has been read; there is no
    timeout. *)
Definition rp_wait_resp : M RemotePortDynPkt :=
  log Call_rp_wait_resp ;;;
  fun m => match rsp_inbox m with
           | [] => (Blocked, m)
           | rsp :: rest => (Returned rsp, set_rsp_inbox rest m)
           end.

(** Modelled from the spec: rp_dpkt_invalidate of remote-port-proto.c
    marks the buffer as holding no packet; the buffer is local to the
    caller. *)
Definition rp_dpkt_invalidate : M unit := log Call_rp_dpkt_invalidate.

(** Modelled from the spec: the tracked peer clock advances to at least
    the peer's timestamp and never regresses. *)
Definition advance_peer_clk (tracked rclk : Z) : Z := Z.max tracked rclk.

(** Modelled from the spec: rp_sync_vmclock of remote-port.c. *)
Definition rp_sync_vmclock (lclk rclk : Z) : M unit :=
  log (Call_rp_sync_vmclock lclk rclk) ;;;
  fun m => (Returned tt, set_peer_clk (advance_peer_clk (peer_clk m) rclk) m).

(** Modelled from the spec: rp_restart_sync_timer of remote-port.c
    resets the time-since-last-sync accounting. *)
Definition rp_restart_sync_timer : M unit :=
  log Call_rp_restart_sync_timer ;;;
  fun m => (Returned tt, set_sync_timer_base (vm_clk m) m).

(** Modelled from the spec: rp_leave_iothread of remote-port.c; it has
    no effect on the state modelled here. *)
Definition rp_leave_iothread : M unit := log Call_rp_leave_iothread.

(** The encoders, as calls. *)
Definition call_encode {A} (cmd id : Z) (response : bool) (r : A) : M A :=
  log (Call_rp_encode cmd id response) ;;; ret r.

(* ------------------------------------------------------------------ *)
(** * remote-port-memory-master.c                                       *)
(* ------------------------------------------------------------------ *)

Record RemotePortMemoryMaster := {
  master_rp_dev : Z      (* uint32_t rp_dev *)
}.

Record RemotePortMap := {
  parent : RemotePortMemoryMaster;
  offset : Z             (* uint64_t *)
}.

(** The loop of rp_io_read,

      for (i = 0; i < size; i++) { value |= data[i] << (i * 8); }

    with [todo] iterations to go.  [data[i]] is a [uint8_t], promoted to
    [int] for the shift; the [int] is then converted to [uint64_t] for
    the or.  Reading past the data, or shifting by 32 or more, is not
    defined. *)
Fixpoint read_loop (data : list Z) (i : Z) (todo : nat) (value : Z)
    : option Z :=
  match todo with
  | O => Some value
  | S todo' =>
      match data !! Z.to_nat i with
      | None => None
      | Some d =>
          match shl_int d (i * 8) with
          | None => None
          | Some x => read_loop data (i + 1) todo' (Z.lor value (u64 x))
          end
      end
  end.

Definition rp_io_read (map : RemotePortMap) (addr size : Z) : M Z :=
  let s := parent map in
  clk <- rp_normalized_vmclk ;;
  id <- rp_new_id ;;
  enc <- call_encode RP_CMD_read id false
           (rp_encode_read id (master_rp_dev s) clk (u64 (addr + offset map))
                           0 size 0 size) ;;
  let p := fst enc in
  let len := snd enc in
  rp_rsp_mutex_lock ;;;
  rp_write (firstn (Z.to_nat len) (busaccess_bytes p)) ;;;
  rsp <- rp_wait_resp ;;
  (* We dont support out of order answers yet.  *)
  assert (hdr_id (ba_hdr (pkt rsp)) =? be32_to_cpu (hdr_id (ba_hdr p)))
         assert_rsp_id ;;;
  let data := rp_busaccess_dataptr rsp in
  value <- defined (read_loop data 0 (Z.to_nat size) 0) ;;
  let rclk := s64 (timestamp (pkt rsp)) in
  rp_dpkt_invalidate ;;;
  rp_rsp_mutex_unlock ;;;
  rp_sync_vmclock clk rclk ;;;
  (* Reads are sync-points, roll the sync timer.  *)
  rp_restart_sync_timer ;;;
  rp_leave_iothread ;;;
  ret value.

(** The loop of rp_io_write,

      for (i = 0; i < 8; i++) { pay.data[i] = value >> (i * 8); }

    [value] is a [uint64_t]; the assignment keeps its low byte. *)
Fixpoint fill_loop (value : Z) (i : Z) (todo : nat) : list Z :=
  match todo with
  | O => []
  | S todo' => u8 (Z.shiftr value (i * 8)) :: fill_loop value (i + 1) todo'
  end.

(** The bytes of [pay]: the packed packet, then [data[8]]. *)
Definition pay_bytes (p : rp_pkt_busaccess) (data : list Z) : list Z :=
  busaccess_bytes p ++ data.

Definition rp_io_write (map : RemotePortMap) (addr value size : Z) : M unit :=
  let s := parent map in
  let data := fill_loop value 0 8 in
  assert (size <=? 8) assert_size ;;;
  clk <- rp_normalized_vmclk ;;
  id <- rp_new_id ;;
  enc <- call_encode RP_CMD_write id false
           (rp_encode_write id (master_rp_dev s) clk (u64 (addr + offset map))
                            0 size 0 size) ;;
  let p := fst enc in
  let len := snd enc in
  rp_rsp_mutex_lock ;;;
  rp_write (firstn (Z.to_nat (u32 (len + size))) (pay_bytes p data)) ;;;
  rsp <- rp_wait_resp ;;
  (* We dont support out of order answers yet.  *)
  assert (hdr_id (ba_hdr (pkt rsp)) =? be32_to_cpu (hdr_id (ba_hdr p)))
         assert_rsp_id ;;;
  let rclk := s64 (timestamp (pkt rsp)) in
  rp_dpkt_invalidate ;;;
  rp_rsp_mutex_unlock ;;;
  rp_sync_vmclock clk rclk ;;;
  (* Reads are sync-points, roll the sync timer.  *)
  rp_restart_sync_timer ;;;
  rp_leave_iothread ;;;
  ret tt.

(* ------------------------------------------------------------------ *)
(** * remote-port-gpio.c                                                *)
(* ------------------------------------------------------------------ *)

Definition MAX_GPIOS : Z := 32.

(** [gpio_out] holds, for each output line, the level last driven on it. *)
Record RemotePortGPIO := {
  num_gpios : Z;         (* uint16_t *)
  gpio_out : list Z;
  current_id : Z;        (* uint64_t *)
  gpio_rp_dev : Z        (* uint32_t rp_dev *)
}.

Definition rp_gpio_handler (s : RemotePortGPIO) (irq level : Z)
    : M RemotePortGPIO :=
  clk <- rp_normalized_vmclk ;;
  let id := u32 (current_id s) in
  let s' := {| num_gpios := num_gpios s; gpio_out := gpio_out s;
               current_id := u64 (current_id s + 1);
               gpio_rp_dev := gpio_rp_dev s |} in
  enc <- call_encode RP_CMD_interrupt id false
           (rp_encode_interrupt id (gpio_rp_dev s) clk irq 0 level) ;;
  let p := fst enc in
  let len := snd enc in
  rp_write (firstn (Z.to_nat len) (interrupt_bytes p)) ;;;
  ret s'.

(** qemu_set_irq (rpg->gpio_out[pkt->interrupt.line], pkt->interrupt.val).
    The array is indexed without a check; an index past its end is not
    defined. *)
Definition rp_gpio_interrupt (rpg : RemotePortGPIO) (p : rp_pkt_interrupt)
    : option RemotePortGPIO :=
  if (0 <=? line p) && (line p <? Z.of_nat (length (gpio_out rpg))) then
    Some {| num_gpios := num_gpios rpg;
            gpio_out := <[Z.to_nat (line p) := val p]> (gpio_out rpg);
            current_id := current_id rpg;
            gpio_rp_dev := gpio_rp_dev rpg |}
  else None.

(** s->gpio_out = g_new0 (qemu_irq, s->num_gpios). *)
Definition rp_gpio_realize (s : RemotePortGPIO) : RemotePortGPIO :=
  {| num_gpios := num_gpios s;
     gpio_out := replicate (Z.to_nat (num_gpios s)) 0;
     current_id := current_id s;
     gpio_rp_dev := gpio_rp_dev s |}.

(* ------------------------------------------------------------------ *)
(** * remote-port-memory-slave.c                                        *)
(* ------------------------------------------------------------------ *)

Inductive DMADirection :=
  | DMA_DIRECTION_TO_DEVICE
  | DMA_DIRECTION_FROM_DEVICE.

Definition is_from_device (dir : DMADirection) : bool :=
  match dir with
  | DMA_DIRECTION_FROM_DEVICE => true
  | DMA_DIRECTION_TO_DEVICE => false
  end.

(** The [n] bytes of memory from [a] on. *)
Fixpoint mem_load (mem : Z -> Z) (a : Z) (n : nat) : list Z :=
  match n with
  | O => []
  | S n' => mem (u64 a) :: mem_load mem (a + 1) n'
  end.

(** Memory with [bytes] stored from [a] on. *)
Fixpoint mem_store (mem : Z -> Z) (a : Z) (bytes : list Z) : Z -> Z :=
  match bytes with
  | [] => mem
  | b :: bytes' =>
      mem_store (fun x => if x =? u64 a then b else mem x) (a + 1) bytes'
  end.

(** QEMU's dma_memory_rw on a flat memory: towards the device it fills
    the buffer with [len] bytes of memory, from the device it stores the
    first [len] bytes of the buffer.  The result is the buffer
    afterwards. *)
Definition dma_memory_rw (a : Z) (buf : list Z) (len : Z) (dir : DMADirection)
    : M (list Z) :=
  log (Call_dma_memory_rw a len (is_from_device dir)) ;;;
  match dir with
  | DMA_DIRECTION_TO_DEVICE =>
      fun m => (Returned (mem_load (address_space_memory m) a (Z.to_nat len)), m)
  | DMA_DIRECTION_FROM_DEVICE =>
      if len <=? Z.of_nat (length buf) then
        fun m => (Returned buf,
                  set_address_space_memory
                    (mem_store (address_space_memory m) a
                               (firstn (Z.to_nat len) buf)) m)
      else defined None
  end.

Definition rp_cmd_rw (p : RemotePortDynPkt) (dir : DMADirection) : M unit :=
  let pktlen :=
    if is_from_device dir then sizeof_rp_pkt_busaccess
    else sizeof_rp_pkt_busaccess + len (pkt p) in
  assert (width (pkt p) =? 0) assert_width ;;;
  assert (stream_width (pkt p) =? len (pkt p)) assert_stream_width ;;;
  assert (Z.land (hdr_flags (ba_hdr (pkt p))) RP_PKT_FLAGS_response =? 0)
         assert_not_response ;;;
  (* on a write the data follows the request; on a read it is the room
     that follows the response *)
  data <- dma_memory_rw (addr (pkt p))
            (if is_from_device dir then trailing p else [])
            (len (pkt p)) dir ;;
  (* delay here could be set to the annotated cost of doing issuing
     these accesses.  So we just clear the delay.  *)
  let delay := 0 in
  enc <- call_encode
           (if is_from_device dir then RP_CMD_write else RP_CMD_read)
           (hdr_id (ba_hdr (pkt p))) true
           ((if is_from_device dir then rp_encode_write_resp
             else rp_encode_read_resp)
              (hdr_id (ba_hdr (pkt p))) (hdr_dev (ba_hdr (pkt p)))
              (s64 (u64 (timestamp (pkt p) + delay)))
              (addr (pkt p)) (attributes (pkt p)) (len (pkt p))
              (width (pkt p)) (stream_width (pkt p))) ;;
  let rsp := fst enc in
  let enclen := snd enc in
  assert (enclen =? pktlen) assert_enclen ;;;
  rp_write (firstn (Z.to_nat pktlen)
              (busaccess_bytes rsp ++ (if is_from_device dir then [] else data))).

Definition rp_memory_master_write (p : RemotePortDynPkt) : M unit :=
  rp_cmd_rw p DMA_DIRECTION_FROM_DEVICE.

Definition rp_memory_master_read (p : RemotePortDynPkt) : M unit :=
  rp_cmd_rw p DMA_DIRECTION_TO_DEVICE.

(* ------------------------------------------------------------------ *)
(** * Vocabulary of the properties                                      *)
(* ------------------------------------------------------------------ *)

(** The ids the adaptor hands out are 32-bit. *)
Definition id_in_range (m : Machine) : Prop := 0 <= next_id m < 2 ^ 32.

(** The calls [c] logs when run from [m]. *)
Definition calls_of {A} (c : M A) (m : Machine) : list call :=
  drop (length (calls m)) (calls (snd (c m))).

(** The bytes [c] sends to the peer when run from [m]. *)
Definition sent_by {A} (c : M A) (m : Machine) : list Z :=
  drop (length (chr_out m)) (chr_out (snd (c m))).

(** [under_mutex guarded held tr]: along [tr], every call that [guarded]
    selects is made while the response mutex is held; [held] says
    whether it is held at the start. *)
Fixpoint under_mutex (guarded : call -> bool) (held : bool) (tr : list call)
    : bool :=
  match tr with
  | [] => true
  | Call_rp_rsp_mutex_lock :: tr' => under_mutex guarded true tr'
  | Call_rp_rsp_mutex_unlock :: tr' => under_mutex guarded false tr'
  | c :: tr' => (if guarded c then held else true) && under_mutex guarded held tr'
  end.

(** The whole cycle: encoding the request, sending it, waiting for the
    response, consuming it, reconciling the clock. *)
Definition full_cycle (c : call) : bool :=
  match c with
  | Call_rp_encode _ _ _ | Call_rp_write _ | Call_rp_wait_resp
  | Call_rp_dpkt_invalidate | Call_rp_sync_vmclock _ _ => true
  | _ => false
  end.

(** Sending the request, waiting for the response and consuming it. *)
Definition send_and_wait (c : call) : bool :=
  match c with
  | Call_rp_write _ | Call_rp_wait_resp | Call_rp_dpkt_invalidate => true
  | _ => false
  end.

Definition is_lock_or_wait (c : call) : bool :=
  match c with
  | Call_rp_rsp_mutex_lock | Call_rp_rsp_mutex_unlock | Call_rp_wait_resp
  | Call_rp_dpkt_invalidate => true
  | _ => false
  end.

(** Successive reconciliations, each with the local clock of the request
    and the timestamp of the peer. *)
Fixpoint reconciliations (clks : list (Z * Z)) : M unit :=
  match clks with
  | [] => ret tt
  | (lclk, rclk) :: clks' => rp_sync_vmclock lclk rclk ;;; reconciliations clks'
  end.

(** [increasing_from t ts]: [t :: ts] is strictly increasing. *)
Fixpoint increasing_from (t : Z) (ts : list Z) : Prop :=
  match ts with
  | [] => True
  | u :: ts' => t < u /\ increasing_from u ts'
  end.

(** The fields of a bus-access packet received from the peer, decoded to
    host order, are within their types. *)
Definition busaccess_in_range (p : rp_pkt_busaccess) : Prop :=
  0 <= len p < 2 ^ 32 /\ 0 <= addr p < 2 ^ 64.

(** The clock sample a request carries. *)
Definition request_clk (m : Machine) : Z := s64 (vm_clk m - clk_base m).

(** The request rp_io_read encodes when run from [m]. *)
Definition read_request (map : RemotePortMap) (addr size : Z) (m : Machine)
    : rp_pkt_busaccess :=
  fst (rp_encode_read (next_id m) (master_rp_dev (parent map)) (request_clk m)
         (u64 (addr + offset map)) 0 size 0 size).

(** The request rp_io_write encodes when run from [m]. *)
Definition write_request (map : RemotePortMap) (addr size : Z) (m : Machine)
    : rp_pkt_busaccess :=
  fst (rp_encode_write (next_id m) (master_rp_dev (parent map)) (request_clk m)
         (u64 (addr + offset map)) 0 size 0 size).

(** The calls of a bus access up to the wait for the response. *)
Definition request_calls (cmd id : Z) (bytes : list Z) : list call :=
  [Call_rp_normalized_vmclk; Call_rp_new_id; Call_rp_encode cmd id false;
   Call_rp_rsp_mutex_lock; Call_rp_write bytes; Call_rp_wait_resp].

(** The calls of a bus access once its response has passed the check. *)
Definition response_calls (clk rclk : Z) : list call :=
  [Call_rp_dpkt_invalidate; Call_rp_rsp_mutex_unlock;
   Call_rp_sync_vmclock clk rclk; Call_rp_restart_sync_timer;
   Call_rp_leave_iothread].

(** The machine when the response has been taken from the peer: the
    request is out, the mutex is held. *)
Definition after_request (m : Machine) (cmd : Z) (bytes : list Z)
    (rest : list RemotePortDynPkt) : Machine :=
  {| vm_clk := vm_clk m; clk_base := clk_base m;
     next_id := u32 (next_id m + 1);
     rsp_mutex := true;
     chr_out := chr_out m ++ bytes;
     rsp_inbox := rest;
     peer_clk := peer_clk m;
     sync_timer_base := sync_timer_base m;
     address_space_memory := address_space_memory m;
     calls := calls m ++ request_calls cmd (next_id m) bytes |}.

(** The machine when the bus access returns. *)
Definition after_response (m : Machine) (cmd : Z) (bytes : list Z)
    (rest : list RemotePortDynPkt) (rclk : Z) : Machine :=
  {| vm_clk := vm_clk m; clk_base := clk_base m;
     next_id := u32 (next_id m + 1);
     rsp_mutex := false;
     chr_out := chr_out m ++ bytes;
     rsp_inbox := rest;
     peer_clk := advance_peer_clk (peer_clk m) rclk;
     sync_timer_base := vm_clk m;
     address_space_memory := address_space_memory m;
     calls := calls m ++ request_calls cmd (next_id m) bytes
                      ++ response_calls (request_clk m) rclk |}.

(** The response the slave encodes for the request [p]. *)
Definition slave_response (p : RemotePortDynPkt) (dir : DMADirection)
    : rp_pkt_busaccess :=
  fst ((if is_from_device dir then rp_encode_write_resp else rp_encode_read_resp)
         (hdr_id (ba_hdr (pkt p))) (hdr_dev (ba_hdr (pkt p)))
         (s64 (u64 (timestamp (pkt p) + 0)))
         (addr (pkt p)) (attributes (pkt p)) (len (pkt p))
         (width (pkt p)) (stream_width (pkt p))).

(** The assertions on the request that rp_cmd_rw makes before it serves
    it, in order; [None] when they all hold. *)
Definition first_failed_guard (p : RemotePortDynPkt) : option assertion :=
  if negb (width (pkt p) =? 0) then Some assert_width
  else if negb (stream_width (pkt p) =? len (pkt p)) then Some assert_stream_width
  else if negb (Z.land (hdr_flags (ba_hdr (pkt p))) RP_PKT_FLAGS_response =? 0)
       then Some assert_not_response
  else None.

(** The packet the GPIO device encodes for a level change. *)
Definition gpio_packet (s : RemotePortGPIO) (irq level : Z) (m : Machine)
    : rp_pkt_interrupt :=
  fst (rp_encode_interrupt (u32 (current_id s)) (gpio_rp_dev s) (request_clk m)
         irq 0 level).

(** ** The scenarios of the specification *)

(** A channel on device 2, its map at offset 0. *)
Definition scenario_map : RemotePortMap :=
  {| parent := {| master_rp_dev := 2 |}; offset := 0 |}.

(** A response of the peer, decoded: command, id, timestamp and the data
    that follows the packet. *)
Definition scenario_response (cmd id ts : Z) (data : list Z)
    : RemotePortDynPkt :=
  {| pkt := {| ba_hdr := {| hdr_cmd := cmd;
                            hdr_len := 36 + Z.of_nat (length data);
                            hdr_id := id;
                            hdr_flags := RP_PKT_FLAGS_response;
                            hdr_dev := 2 |};
               timestamp := ts; attributes := 0; addr := 0x1000;
               len := Z.of_nat (length data); width := 0;
               stream_width := Z.of_nat (length data) |};
     trailing := data |}.

(** A machine at clock 100 whose next id is 1, with the responses the
    peer is going to deliver. *)
Definition scenario_machine (inbox : list RemotePortDynPkt) : Machine :=
  {| vm_clk := 100; clk_base := 0; next_id := 1; rsp_mutex := false;
     chr_out := []; rsp_inbox := inbox; peer_clk := 0; sync_timer_base := 0;
     address_space_memory := fun a => a mod 256; calls := [] |}.

(** A request of the peer to the memory slave, decoded. *)
Definition scenario_request (cmd flags len width stream_width : Z)
    (data : list Z) : RemotePortDynPkt :=
  {| pkt := {| ba_hdr := {| hdr_cmd := cmd;
                            hdr_len := 36 + Z.of_nat (length data);
                            hdr_id := 7; hdr_flags := flags; hdr_dev := 2 |};
               timestamp := 100; attributes := 0; addr := 0x1000;
               len := len; width := width; stream_width := stream_width |};
     trailing := data |}.

(** A GPIO device with four lines. *)
Definition scenario_gpio : RemotePortGPIO :=
  {| num_gpios := 4; gpio_out := [0; 0; 0; 0]; current_id := 5;
     gpio_rp_dev := 3 |}.

(** Scenario A: the response to a four-byte read carries AA BB CC DD. *)
Definition scenario_A_response : RemotePortDynPkt :=
  scenario_response RP_CMD_read 1 120 [0xAA; 0xBB; 0xCC; 0xDD].

Definition scenario_A_machine : Machine :=
  scenario_machine [scenario_A_response].



(** A response with two bytes of data, 34 12. *)
Definition scenario_B_response : RemotePortDynPkt :=
  scenario_response RP_CMD_read 1 120 [0x34; 0x12].

Definition scenario_B_machine : Machine :=
  scenario_machine [scenario_B_response].

(** Requests of the peer to the memory slave: an incremental access of
    four bytes, a streaming one, and a packet with the response flag. *)
Definition scenario_incremental_request : RemotePortDynPkt :=
  scenario_request RP_CMD_read 0 4 0 4 [1; 2; 3; 4].

Definition scenario_streaming_request : RemotePortDynPkt :=
  scenario_request RP_CMD_read 0 8 4 4 [1; 2; 3; 4; 5; 6; 7; 8].

Definition scenario_flagged_request : RemotePortDynPkt :=
  scenario_request RP_CMD_read RP_PKT_FLAGS_response 4 0 4 [1; 2; 3; 4].

(** An interrupt packet of the peer for line 2, value 1. *)
Definition scenario_interrupt : rp_pkt_interrupt :=
  {| irq_hdr := {| hdr_cmd := RP_CMD_interrupt; hdr_len := 21; hdr_id := 9;
                   hdr_flags := 0; hdr_dev := 3 |};
     irq_timestamp := 100; vector := 0; line := 2; val := 1 |}.

(* ------------------------------------------------------------------ *)
(** * The rest of the devices, and the receiving side                   *)
(* ------------------------------------------------------------------ *)

(** ** remote-port-memory-master.c: realize *)

(** The [cfg] of the memory master: the two property arrays with their
    lengths ([uint32_t]), the sizes and the offsets of the maps. *)
Record RemotePortMemoryMasterCfg := {
  num_maps : Z;
  num_offsets : Z;
  mapsize : list Z;
  mapoffset : list Z
}.

(** How rp_memory_master_realize ends. *)
Inductive realized :=
  | Realized (mmaps : list (RemotePortMap * Z))
  | RealizeAssertionFailed     (* s->cfg.num_maps == s->cfg.num_offsets *)
  | RealizeUndefined.

(** The loop of rp_memory_master_realize, from map [i] on with [todo]
    maps to go: each map gets its offset and its parent, and a memory
    region of its size over rp_ops.  The result pairs each map with the
    size of its region.  Indexing an array past its end is not
    defined. *)
Fixpoint realize_loop (s : RemotePortMemoryMaster)
    (cfg : RemotePortMemoryMasterCfg) (i : Z) (todo : nat)
    : option (list (RemotePortMap * Z)) :=
  match todo with
  | O => Some []
  | S todo' =>
      match mapoffset cfg !! Z.to_nat i, mapsize cfg !! Z.to_nat i with
      | Some off, Some sz =>
          match realize_loop s cfg (i + 1) todo' with
          | Some mmaps => Some (({| parent := s; offset := off |}, sz) :: mmaps)
          | None => None
          end
      | _, _ => None
      end
  end.

Definition rp_memory_master_realize (s : RemotePortMemoryMaster)
    (cfg : RemotePortMemoryMasterCfg) : realized :=
  if num_maps cfg =? num_offsets cfg then
    match realize_loop s cfg 0 (Z.to_nat (num_maps cfg)) with
    | Some mmaps => Realized mmaps
    | None => RealizeUndefined
    end
  else RealizeAssertionFailed.

(** The property arrays are as long as their counts say. *)
Definition cfg_arrays (cfg : RemotePortMemoryMasterCfg) : Prop :=
  Z.of_nat (length (mapsize cfg)) = num_maps cfg
  /\ Z.of_nat (length (mapoffset cfg)) = num_offsets cfg.

(** ** Sequences of operations *)





(** Level changes on the input lines of the GPIO device, one after the
    other: each is a line and a level. *)
Fixpoint level_changes (s : RemotePortGPIO) (evs : list (Z * Z))
    : M RemotePortGPIO :=
  match evs with
  | [] => ret s
  | (irq, level) :: evs' =>
      s' <- rp_gpio_handler s irq level ;; level_changes s' evs'
  end.

(** The ids of the packets encoded along a log. *)
Definition encoded_ids (tr : list call) : list Z :=
  omap (fun c => match c with
                 | Call_rp_encode _ id _ => Some id
                 | _ => None
                 end) tr.

(** Interrupt packets of the peer dispatched one after the other. *)
Fixpoint dispatch_interrupts (rpg : RemotePortGPIO)
    (ps : list rp_pkt_interrupt) : option RemotePortGPIO :=
  match ps with
  | [] => Some rpg
  | p :: ps' =>
      match rp_gpio_interrupt rpg p with
      | Some rpg' => dispatch_interrupts rpg' ps'
      | None => None
      end
  end.

(** The line of [p] is within the output lines of [rpg]. *)
Definition line_in_range (rpg : RemotePortGPIO) (p : rp_pkt_interrupt) : Prop :=
  0 <= line p < Z.of_nat (length (gpio_out rpg)).

(** The level of line [j] after the packets [ps], when it was [d]. *)
Fixpoint last_level (j : nat) (ps : list rp_pkt_interrupt) (d : Z) : Z :=
  match ps with
  | [] => d
  | p :: ps' =>
      last_level j ps' (if Nat.eqb (Z.to_nat (line p)) j then val p else d)
  end.

(** Requests served by the memory slave one after the other: the
    direction says which callback the command reaches. *)
Fixpoint slave_serves (reqs : list (DMADirection * RemotePortDynPkt))
    : M unit :=
  match reqs with
  | [] => ret tt
  | (dir, p) :: reqs' => rp_cmd_rw p dir ;;; slave_serves reqs'
  end.

(** Every byte of memory is a byte. *)
Definition memory_of_bytes (mem : Z -> Z) : Prop := forall a, is_byte (mem a).

(** ** The receiving side *)

(** An [n]-byte integer in network order at the head of [bytes], and the
    bytes after it. *)
Definition get_int (n : nat) (bytes : list Z) : option (Z * list Z) :=
  if (length bytes <? n)%nat then None
  else Some (of_be (firstn n bytes), skipn n bytes).

(** Modelled from the spec: what remote-port.c hands to a device
    callback or to the caller of rp_wait_resp for a bus-access packet
    read from the peer (remote-port.c and the decoders rp_decode_hdr and
    rp_decode_payload are not among the sources): the fields of the
    packet converted from network order, and the bytes that follow the
    packet. *)
Definition receive_busaccess (bytes : list Z) : option RemotePortDynPkt :=
  match get_int 4 bytes with None => None | Some (cmd, b1) =>
  match get_int 4 b1 with None => None | Some (hlen, b2) =>
  match get_int 4 b2 with None => None | Some (id, b3) =>
  match get_int 4 b3 with None => None | Some (flags, b4) =>
  match get_int 4 b4 with None => None | Some (dev, b5) =>
  match get_int 8 b5 with None => None | Some (ts, b6) =>
  match get_int 8 b6 with None => None | Some (attr, b7) =>
  match get_int 8 b7 with None => None | Some (a, b8) =>
  match get_int 4 b8 with None => None | Some (l, b9) =>
  match get_int 4 b9 with None => None | Some (w, b10) =>
  match get_int 4 b10 with None => None | Some (sw, data) =>
    Some {| pkt := {| ba_hdr := {| hdr_cmd := cmd; hdr_len := hlen;
                                   hdr_id := id; hdr_flags := flags;
                                   hdr_dev := dev |};
                      timestamp := ts; attributes := attr; addr := a;
                      len := l; width := w; stream_width := sw |};
            trailing := data |}
  end end end end end end end end end end end.

(** Modelled from the spec: the same for an interrupt packet. *)
Definition receive_interrupt (bytes : list Z) : option rp_pkt_interrupt :=
  match get_int 4 bytes with None => None | Some (cmd, b1) =>
  match get_int 4 b1 with None => None | Some (hlen, b2) =>
  match get_int 4 b2 with None => None | Some (id, b3) =>
  match get_int 4 b3 with None => None | Some (flags, b4) =>
  match get_int 4 b4 with None => None | Some (dev, b5) =>
  match get_int 8 b5 with None => None | Some (ts, b6) =>
  match get_int 8 b6 with None => None | Some (vec, b7) =>
  match get_int 4 b7 with None => None | Some (l, b8) =>
  match get_int 1 b8 with None => None | Some (v, _) =>
    Some {| irq_hdr := {| hdr_cmd := cmd; hdr_len := hlen; hdr_id := id;
                          hdr_flags := flags; hdr_dev := dev |};
            irq_timestamp := ts; vector := vec; line := l; val := v |}
  end end end end end end end end end.

(** The fields of a request received from the peer are within their
    types. *)
Definition request_in_range (p : RemotePortDynPkt) : Prop :=
  0 <= hdr_id (ba_hdr (pkt p)) < 2 ^ 32
  /\ 0 <= hdr_dev (ba_hdr (pkt p)) < 2 ^ 32
  /\ 0 <= timestamp (pkt p) < 2 ^ 64
  /\ 0 <= attributes (pkt p) < 2 ^ 64
  /\ 0 <= addr (pkt p) < 2 ^ 64
  /\ 0 <= len (pkt p) < 2 ^ 32.

(** ** More scenarios *)

(** A bus-access packet as received, on device 2 at address 0x1000: an
    incremental access of [len] bytes. *)
Definition scenario_packet (cmd hlen id flags ts len : Z) (data : list Z)
    : RemotePortDynPkt :=
  {| pkt := {| ba_hdr := {| hdr_cmd := cmd; hdr_len := hlen; hdr_id := id;
                            hdr_flags := flags; hdr_dev := 2 |};
               timestamp := ts; attributes := 0; addr := 0x1000;
               len := len; width := 0; stream_width := len |};
     trailing := data |}.

(** A read of two bytes at 0x1000 with id 1 at clock 100, and the
    response of a slave whose memory holds 00 01 there. *)
Definition scenario_read_request : RemotePortDynPkt :=
  scenario_packet RP_CMD_read 36 1 0 100 2 [].

Definition scenario_read_response : RemotePortDynPkt :=
  scenario_packet RP_CMD_read 38 1 RP_PKT_FLAGS_response 100 2 [0; 1].

(** A write of 0x1234 in two bytes at 0x1000 with id 1 at clock 100, and
    the response of a slave. *)
Definition scenario_write_request : RemotePortDynPkt :=
  scenario_packet RP_CMD_write 38 1 0 100 2 [0x34; 0x12].

Definition scenario_write_response : RemotePortDynPkt :=
  scenario_packet RP_CMD_write 36 1 RP_PKT_FLAGS_response 100 2 [].

(** Two maps: 0x1000 bytes at offset 0 and 0x100 bytes at offset 0x4000. *)
Definition scenario_cfg : RemotePortMemoryMasterCfg :=
  {| num_maps := 2; num_offsets := 2;
     mapsize := [0x1000; 0x100]; mapoffset := [0; 0x4000] |}.



(** ** Scenarios of a write and of driven lines *)

(** The response to a write, without data, stamped 120; and a machine
    the peer answers with it. *)
Definition scenario_write_ack : RemotePortDynPkt :=
  scenario_response RP_CMD_write 1 120 [].

Definition scenario_write_machine : Machine :=
  scenario_machine [scenario_write_ack].

(** A GPIO device whose four lines have all been driven to 7. *)
Definition scenario_driven_gpio : RemotePortGPIO :=
  {| num_gpios := 4; gpio_out := [7; 7; 7; 7]; current_id := 5;
     gpio_rp_dev := 3 |}.

(* ------------------------------------------------------------------ *)
(** * Byte order: lemmas                                                *)
(* ------------------------------------------------------------------ *)

Lemma length_le_bytes (n : nat) (x : Z) : length (le_bytes n x) = n.
Proof.
  revert x; induction n as [|n IH]; intros x; simpl; [reflexivity|].
  now rewrite IH.
Qed.

Lemma length_be_bytes (n : nat) (x : Z) : length (be_bytes n x) = n.
Proof. unfold be_bytes. now rewrite length_rev, length_le_bytes. Qed.

Lemma le_bytes_are_bytes (n : nat) (x : Z) : Forall is_byte (le_bytes n x).
Proof.
  revert x; induction n as [|n IH]; intros x; simpl; constructor.
  - unfold is_byte. apply Z.mod_pos_bound. lia.
  - apply IH.
Qed.

Lemma of_le_le_bytes (n : nat) (x : Z) :
  of_le (le_bytes n x) = x mod 256 ^ Z.of_nat n.
Proof.
  revert x; induction n as [|n IH]; intros x.
  - simpl. now rewrite Z.mod_1_r.
  - cbn [le_bytes of_le]. rewrite IH.
    replace (256 ^ Z.of_nat (S n)) with (256 * 256 ^ Z.of_nat n)
      by (rewrite Nat2Z.inj_succ, Z.pow_succ_r; lia).
    rewrite Z.rem_mul_r; [reflexivity | lia | ].
    apply Z.pow_pos_nonneg; lia.
Qed.

Lemma le_bytes_of_le (bs : list Z) :
  Forall is_byte bs -> le_bytes (length bs) (of_le bs) = bs.
Proof.
  induction 1 as [|b bs Hb _ IH]; [reflexivity|].
  unfold is_byte in Hb. cbn [length le_bytes of_le].
  replace ((b + 256 * of_le bs) mod 256) with b.
  - replace ((b + 256 * of_le bs) / 256) with (of_le bs).
    + now rewrite IH.
    + rewrite Z.mul_comm, Z.div_add by lia. rewrite Z.div_small; lia.
  - rewrite Z.mul_comm, Z.mod_add by lia. rewrite Z.mod_small; lia.
Qed.

Lemma le_bytes_bswap (n : nat) (x : Z) :
  le_bytes n (bswap n x) = be_bytes n x.
Proof.
  unfold bswap.
  rewrite <- (length_be_bytes n x) at 1.
  apply le_bytes_of_le. unfold be_bytes.
  apply Forall_rev, le_bytes_are_bytes.
Qed.

Lemma bswap_involutive (n : nat) (x : Z) :
  0 <= x < 256 ^ Z.of_nat n -> bswap n (bswap n x) = x.
Proof.
  intros Hx. unfold bswap at 1. unfold be_bytes.
  rewrite le_bytes_bswap. unfold be_bytes.
  rewrite rev_involutive, of_le_le_bytes. now apply Z.mod_small.
Qed.

(** A field that holds [htobe32 x] reads back as [x]. *)
Lemma be32_to_cpu_htobe32 (x : Z) :
  0 <= x < 2 ^ 32 -> be32_to_cpu (htobe32 x) = x.
Proof.
  intros Hx. unfold be32_to_cpu, htobe32.
  destruct host_big_endian; [reflexivity|].
  apply bswap_involutive. exact Hx.
Qed.

(** Whatever the host, a field that holds [htobe32 x] or [htobe64 x]
    lies in memory in network byte order. *)
Lemma mem_int_htobe32 (x : Z) : mem_int 4 (htobe32 x) = be_bytes 4 x.
Proof.
  unfold mem_int, htobe32. destruct host_big_endian; [reflexivity|].
  apply le_bytes_bswap.
Qed.

Lemma mem_int_htobe64 (x : Z) : mem_int 8 (htobe64 x) = be_bytes 8 x.
Proof.
  unfold mem_int, htobe64. destruct host_big_endian; [reflexivity|].
  apply le_bytes_bswap.
Qed.

Lemma length_mem_int (n : nat) (x : Z) : length (mem_int n x) = n.
Proof.
  unfold mem_int. destruct host_big_endian.
  - apply length_be_bytes.
  - apply length_le_bytes.
Qed.

Lemma length_hdr_bytes (h : rp_pkt_hdr) :
  length (hdr_bytes h) = Z.to_nat sizeof_rp_pkt_hdr.
Proof.
  unfold hdr_bytes. rewrite !length_app, !length_mem_int. reflexivity.
Qed.

Lemma length_busaccess_bytes (p : rp_pkt_busaccess) :
  length (busaccess_bytes p) = Z.to_nat sizeof_rp_pkt_busaccess.
Proof.
  unfold busaccess_bytes.
  rewrite !length_app, length_hdr_bytes, !length_mem_int. reflexivity.
Qed.

Lemma length_interrupt_bytes (p : rp_pkt_interrupt) :
  length (interrupt_bytes p) = Z.to_nat sizeof_rp_pkt_interrupt.
Proof.
  unfold interrupt_bytes.
  rewrite !length_app, length_hdr_bytes, !length_mem_int. reflexivity.
Qed.

(* ------------------------------------------------------------------ *)
(** * Running device code                                               *)
(* ------------------------------------------------------------------ *)

Lemma bind_returned {A B} (c : M A) (k : A -> M B) (m m' : Machine) (a : A) :
  c m = (Returned a, m') -> bind c k m = k a m'.
Proof. intros H. unfold bind. now rewrite H. Qed.

Lemma bind_assertion_failed {A B} (c : M A) (k : A -> M B) (m m' : Machine)
    (w : assertion) :
  c m = (AssertionFailed w, m') -> bind c k m = (AssertionFailed w, m').
Proof. intros H. unfold bind. now rewrite H. Qed.

Lemma bind_blocked {A B} (c : M A) (k : A -> M B) (m m' : Machine) :
  c m = (Blocked, m') -> bind c k m = (Blocked, m').
Proof. intros H. unfold bind. now rewrite H. Qed.

Lemma bind_undefined {A B} (c : M A) (k : A -> M B) (m m' : Machine) :
  c m = (Undefined, m') -> bind c k m = (Undefined, m').
Proof. intros H. unfold bind. now rewrite H. Qed.

Lemma run_log (c : call) (m : Machine) :
  log c m = (Returned tt, set_calls (calls m ++ [c]) m).
Proof. reflexivity. Qed.

Lemma run_rp_normalized_vmclk (m : Machine) :
  rp_normalized_vmclk m
  = (Returned (s64 (vm_clk m - clk_base m)),
     set_calls (calls m ++ [Call_rp_normalized_vmclk]) m).
Proof. reflexivity. Qed.

Lemma run_rp_new_id (m : Machine) :
  rp_new_id m
  = (Returned (next_id m),
     set_next_id (u32 (next_id m + 1))
       (set_calls (calls m ++ [Call_rp_new_id]) m)).
Proof. reflexivity. Qed.

Lemma run_call_encode {A} (cmd id : Z) (response : bool) (r : A) (m : Machine) :
  call_encode cmd id response r m
  = (Returned r, set_calls (calls m ++ [Call_rp_encode cmd id response]) m).
Proof. reflexivity. Qed.

Lemma run_rp_rsp_mutex_lock (m : Machine) :
  rsp_mutex m = false ->
  rp_rsp_mutex_lock m
  = (Returned tt,
     set_rsp_mutex true (set_calls (calls m ++ [Call_rp_rsp_mutex_lock]) m)).
Proof.
  intros H. unfold rp_rsp_mutex_lock.
  erewrite bind_returned by apply run_log.
  cbn. now rewrite H.
Qed.

Lemma run_rp_rsp_mutex_unlock (m : Machine) :
  rp_rsp_mutex_unlock m
  = (Returned tt,
     set_rsp_mutex false (set_calls (calls m ++ [Call_rp_rsp_mutex_unlock]) m)).
Proof. reflexivity. Qed.

Lemma run_rp_write (bytes : list Z) (m : Machine) :
  rp_write bytes m
  = (Returned tt,
     set_chr_out (chr_out m ++ bytes)
       (set_calls (calls m ++ [Call_rp_write bytes]) m)).
Proof. reflexivity. Qed.

Lemma run_rp_wait_resp (m : Machine) (rsp : RemotePortDynPkt)
    (rest : list RemotePortDynPkt) :
  rsp_inbox m = rsp :: rest ->
  rp_wait_resp m
  = (Returned rsp,
     set_rsp_inbox rest (set_calls (calls m ++ [Call_rp_wait_resp]) m)).
Proof.
  intros H. unfold rp_wait_resp.
  erewrite bind_returned by apply run_log.
  cbn. now rewrite H.
Qed.

Lemma run_rp_dpkt_invalidate (m : Machine) :
  rp_dpkt_invalidate m
  = (Returned tt, set_calls (calls m ++ [Call_rp_dpkt_invalidate]) m).
Proof. reflexivity. Qed.

Lemma run_rp_sync_vmclock (lclk rclk : Z) (m : Machine) :
  rp_sync_vmclock lclk rclk m
  = (Returned tt,
     set_peer_clk (advance_peer_clk (peer_clk m) rclk)
       (set_calls (calls m ++ [Call_rp_sync_vmclock lclk rclk]) m)).
Proof. reflexivity. Qed.

Lemma run_rp_restart_sync_timer (m : Machine) :
  rp_restart_sync_timer m
  = (Returned tt,
     set_sync_timer_base (vm_clk m)
       (set_calls (calls m ++ [Call_rp_restart_sync_timer]) m)).
Proof. reflexivity. Qed.

Lemma run_rp_leave_iothread (m : Machine) :
  rp_leave_iothread m
  = (Returned tt, set_calls (calls m ++ [Call_rp_leave_iothread]) m).
Proof. reflexivity. Qed.

Lemma run_assert_true (w : assertion) (m : Machine) :
  assert true w m = (Returned tt, m).
Proof. reflexivity. Qed.

Lemma run_assert_false (w : assertion) (m : Machine) :
  assert false w m = (AssertionFailed w, m).
Proof. reflexivity. Qed.

Create HintDb run.
#[local] Hint Resolve run_log run_rp_normalized_vmclk run_rp_new_id
  run_call_encode run_rp_rsp_mutex_unlock run_rp_write run_rp_dpkt_invalidate
  run_rp_sync_vmclock run_rp_restart_sync_timer run_rp_leave_iothread
  run_assert_true : run.

(** One step of a run: the first call of a sequence returns. *)
Ltac norm :=
  cbv beta;
  cbn [vm_clk clk_base next_id rsp_mutex chr_out rsp_inbox peer_clk
       sync_timer_base address_space_memory calls
       set_next_id set_rsp_mutex set_chr_out set_rsp_inbox set_peer_clk
       set_sync_timer_base set_address_space_memory set_calls].
Ltac run1 := erewrite bind_returned by eauto with run; norm.

Lemma take_busaccess_bytes (p : rp_pkt_busaccess) :
  firstn (Z.to_nat sizeof_rp_pkt_busaccess) (busaccess_bytes p)
  = busaccess_bytes p.
Proof. apply firstn_all2. now rewrite length_busaccess_bytes. Qed.

Lemma take_interrupt_bytes (p : rp_pkt_interrupt) :
  firstn (Z.to_nat sizeof_rp_pkt_interrupt) (interrupt_bytes p)
  = interrupt_bytes p.
Proof. apply firstn_all2. now rewrite length_interrupt_bytes. Qed.

Lemma request_id_read_back (map : RemotePortMap) (addr size : Z) (m : Machine) :
  id_in_range m ->
  be32_to_cpu (hdr_id (ba_hdr (read_request map addr size m))) = next_id m.
Proof.
  intros H. unfold read_request, rp_encode_read. cbn.
  unfold u32 at 1. rewrite Z.mod_small by exact H.
  apply be32_to_cpu_htobe32, H.
Qed.

Lemma write_request_id_read_back (map : RemotePortMap) (addr size : Z)
    (m : Machine) :
  id_in_range m ->
  be32_to_cpu (hdr_id (ba_hdr (write_request map addr size m))) = next_id m.
Proof.
  intros H. unfold write_request, rp_encode_write. cbn.
  unfold u32 at 1. rewrite Z.mod_small by exact H.
  apply be32_to_cpu_htobe32, H.
Qed.

(** What rp_io_read does when the mutex is free and the peer answers. *)
Lemma rp_io_read_run (m : Machine) (map : RemotePortMap) (addr size : Z)
    (rsp : RemotePortDynPkt) (rest : list RemotePortDynPkt) :
  id_in_range m -> rsp_mutex m = false -> rsp_inbox m = rsp :: rest ->
  rp_io_read map addr size m
  = let bytes := busaccess_bytes (read_request map addr size m) in
    if hdr_id (ba_hdr (pkt rsp)) =? next_id m then
      match read_loop (trailing rsp) 0 (Z.to_nat size) 0 with
      | Some v =>
          (Returned v,
           after_response m RP_CMD_read bytes rest (s64 (timestamp (pkt rsp))))
      | None => (Undefined, after_request m RP_CMD_read bytes rest)
      end
    else (AssertionFailed assert_rsp_id, after_request m RP_CMD_read bytes rest).
Proof.
  intros Hid Hmx Hin.
  unfold rp_io_read. cbv zeta.
  run1. run1. run1.
  erewrite bind_returned by (apply run_rp_rsp_mutex_lock; exact Hmx). norm.
  run1.
  erewrite bind_returned by (eapply run_rp_wait_resp; exact Hin). norm.
  fold (request_clk m). fold (read_request map addr size m).
  rewrite request_id_read_back by exact Hid.
  change (snd (rp_encode_read _ _ _ _ _ _ _ _)) with sizeof_rp_pkt_busaccess.
  rewrite take_busaccess_bytes.
  unfold after_request, after_response, request_calls, response_calls.
  destruct (hdr_id (ba_hdr (pkt rsp)) =? next_id m).
  - run1. unfold rp_busaccess_dataptr.
    destruct (read_loop (trailing rsp) 0 (Z.to_nat size) 0) as [v|].
    + erewrite bind_returned by reflexivity. norm.
      run1. run1. run1. run1. run1.
      unfold ret. do 2 f_equal. rewrite <- !app_assoc. reflexivity.
    + erewrite bind_undefined by reflexivity.
      do 2 f_equal. rewrite <- !app_assoc. reflexivity.
  - erewrite bind_assertion_failed by reflexivity.
    do 2 f_equal. rewrite <- !app_assoc. reflexivity.
Qed.

Lemma fill_loop_le_bytes (value i : Z) (n : nat) :
  0 <= i -> fill_loop value i n = le_bytes n (Z.shiftr value (i * 8)).
Proof.
  revert i; induction n as [|n IH]; intros i Hi; [reflexivity|].
  cbn [fill_loop le_bytes]. rewrite IH by lia. f_equal.
  replace ((i + 1) * 8) with (i * 8 + 8) by lia.
  rewrite <- Z.shiftr_shiftr by lia.
  now rewrite (Z.shiftr_div_pow2 _ 8) by lia.
Qed.

Lemma firstn_le_bytes (n k : nat) (x : Z) :
  (n <= k)%nat -> firstn n (le_bytes k x) = le_bytes n x.
Proof.
  revert k x; induction n as [|n IH]; intros k x Hk; [reflexivity|].
  destruct k as [|k]; [lia|]. cbn [le_bytes firstn].
  f_equal. apply IH. lia.
Qed.

(** What rp_io_write puts in [pay.data], cut to the size of the access. *)
Lemma pay_data_little_endian (value size : Z) :
  0 <= size <= 8 ->
  firstn (Z.to_nat size) (fill_loop value 0 8) = le_bytes (Z.to_nat size) value.
Proof.
  intros H. rewrite fill_loop_le_bytes by lia.
  rewrite Z.shiftr_0_r. apply firstn_le_bytes. lia.
Qed.

Lemma take_pay_bytes (p : rp_pkt_busaccess) (value size : Z) :
  0 <= size <= 8 ->
  firstn (Z.to_nat (u32 (sizeof_rp_pkt_busaccess + size)))
         (pay_bytes p (fill_loop value 0 8))
  = busaccess_bytes p ++ le_bytes (Z.to_nat size) value.
Proof.
  intros H. unfold pay_bytes, u32.
  rewrite Z.mod_small by (unfold sizeof_rp_pkt_busaccess, sizeof_rp_pkt_hdr; lia).
  rewrite Z2Nat.inj_add by (unfold sizeof_rp_pkt_busaccess, sizeof_rp_pkt_hdr; lia).
  rewrite <- (length_busaccess_bytes p).
  rewrite firstn_app_2. f_equal. now apply pay_data_little_endian.
Qed.

(** What rp_io_write does when the mutex is free and the peer answers. *)
Lemma rp_io_write_run (m : Machine) (map : RemotePortMap) (addr value size : Z)
    (rsp : RemotePortDynPkt) (rest : list RemotePortDynPkt) :
  0 <= size <= 8 ->
  id_in_range m -> rsp_mutex m = false -> rsp_inbox m = rsp :: rest ->
  rp_io_write map addr value size m
  = let bytes := busaccess_bytes (write_request map addr size m)
                 ++ le_bytes (Z.to_nat size) value in
    if hdr_id (ba_hdr (pkt rsp)) =? next_id m then
      (Returned tt,
       after_response m RP_CMD_write bytes rest (s64 (timestamp (pkt rsp))))
    else (AssertionFailed assert_rsp_id, after_request m RP_CMD_write bytes rest).
Proof.
  intros Hsz Hid Hmx Hin.
  unfold rp_io_write. cbv zeta.
  replace (size <=? 8) with true by (symmetry; apply Z.leb_le; lia).
  run1. run1. run1. run1.
  erewrite bind_returned by (apply run_rp_rsp_mutex_lock; exact Hmx). norm.
  run1.
  erewrite bind_returned by (eapply run_rp_wait_resp; exact Hin). norm.
  fold (request_clk m). fold (write_request map addr size m).
  rewrite write_request_id_read_back by exact Hid.
  change (snd (rp_encode_write _ _ _ _ _ _ _ _)) with sizeof_rp_pkt_busaccess.
  rewrite take_pay_bytes by exact Hsz.
  unfold after_request, after_response, request_calls, response_calls.
  destruct (hdr_id (ba_hdr (pkt rsp)) =? next_id m).
  - run1. run1. run1. run1. run1. run1.
    unfold ret. do 2 f_equal. rewrite <- !app_assoc. reflexivity.
  - erewrite bind_assertion_failed by reflexivity.
    do 2 f_equal. rewrite <- !app_assoc. reflexivity.
Qed.

(** A write of more than eight bytes stops at the first assertion:
    nothing is sent. *)
Lemma rp_io_write_too_large (m : Machine) (map : RemotePortMap)
    (addr value size : Z) :
  8 < size ->
  rp_io_write map addr value size m = (AssertionFailed assert_size, m).
Proof.
  intros H. unfold rp_io_write. cbv zeta.
  replace (size <=? 8) with false by (symmetry; apply Z.leb_gt; lia).
  reflexivity.
Qed.

(** A caller that finds the mutex held, or no response, stays blocked. *)
Lemma rp_io_read_blocked_on_mutex (m : Machine) (map : RemotePortMap)
    (addr size : Z) :
  rsp_mutex m = true -> fst (rp_io_read map addr size m) = Blocked.
Proof.
  intros Hmx. unfold rp_io_read. cbv zeta.
  run1. run1. run1.
  unfold rp_rsp_mutex_lock at 1.
  unfold bind at 1. unfold bind at 1. rewrite run_log. norm. rewrite Hmx.
  reflexivity.
Qed.

(** What rp_gpio_handler does. *)
Lemma rp_gpio_handler_run (m : Machine) (s : RemotePortGPIO) (irq level : Z) :
  rp_gpio_handler s irq level m
  = let bytes := interrupt_bytes (gpio_packet s irq level m) in
    (Returned {| num_gpios := num_gpios s; gpio_out := gpio_out s;
                 current_id := u64 (current_id s + 1);
                 gpio_rp_dev := gpio_rp_dev s |},
     set_chr_out (chr_out m ++ bytes)
       (set_calls (calls m ++ [Call_rp_normalized_vmclk;
                               Call_rp_encode RP_CMD_interrupt
                                              (u32 (current_id s)) false;
                               Call_rp_write bytes]) m)).
Proof.
  unfold rp_gpio_handler. cbv zeta.
  run1. run1.
  fold (request_clk m). fold (gpio_packet s irq level m).
  change (snd (rp_encode_interrupt _ _ _ _ _ _)) with sizeof_rp_pkt_interrupt.
  rewrite take_interrupt_bytes.
  run1. unfold ret, set_chr_out, set_calls. norm.
  do 2 f_equal. rewrite <- !app_assoc. reflexivity.
Qed.

(* ------------------------------------------------------------------ *)
(** * The loop of rp_io_read                                            *)
(* ------------------------------------------------------------------ *)

Lemma land_low_high (a b k : Z) :
  0 <= a < 2 ^ k -> Z.land a (b * 2 ^ k) = 0.
Proof.
  intros Ha. apply Z.bits_inj'. intros n Hn.
  rewrite Z.land_spec, Z.bits_0.
  destruct (Z.lt_ge_cases n k) as [Hlt|Hge].
  - rewrite Z.mul_pow2_bits_low by exact Hlt. apply andb_false_r.
  - destruct (Z.eq_dec a 0) as [->|Hnz]; [now rewrite Z.bits_0|].
    rewrite (Z.bits_above_log2 a n); [reflexivity | lia |].
    apply Z.log2_lt_pow2; [lia|].
    apply Z.lt_le_trans with (2 ^ k); [lia|].
    apply Z.pow_le_mono_r; lia.
Qed.

Lemma lor_low_high (a b k : Z) :
  0 <= a < 2 ^ k -> Z.lor a (b * 2 ^ k) = a + b * 2 ^ k.
Proof.
  intros Ha.
  pose proof (Z.sub_2lor_lxor a (b * 2 ^ k)) as H.
  rewrite (Z.lxor_lor a (b * 2 ^ k)) in H by now apply land_low_high.
  lia.
Qed.

Lemma shl_int_in_range (d k : Z) :
  0 <= k < 32 -> shl_int d k = Some (s32 (d * 2 ^ k)).
Proof.
  intros Hk. unfold shl_int.
  replace (0 <=? k) with true by (symmetry; apply Z.leb_le; lia).
  replace (k <? 32) with true by (symmetry; apply Z.ltb_lt; lia).
  cbn [andb]. now rewrite Z.shiftl_mul_pow2 by lia.
Qed.

Lemma shl_int_out_of_range (d k : Z) : 32 <= k -> shl_int d k = None.
Proof.
  intros Hk. unfold shl_int.
  replace (k <? 32) with false by (symmetry; apply Z.ltb_ge; lia).
  now rewrite andb_false_r.
Qed.

(** From the fifth byte on the shift count is 32 or more. *)
Lemma read_loop_overshift (data : list Z) (i value : Z) (todo : nat) :
  4 <= i -> read_loop data i (S todo) value = None.
Proof.
  intros Hi. cbn [read_loop].
  destruct (data !! Z.to_nat i); [|reflexivity].
  now rewrite shl_int_out_of_range by lia.
Qed.

Lemma read_loop_reaches_overshift (data : list Z) (todo : nat) :
  forall i value : Z,
  0 <= i -> 4 < i + Z.of_nat todo -> (0 < todo)%nat ->
  read_loop data i todo value = None.
Proof.
  induction todo as [|todo IH]; intros i value Hi Hsum Hpos; [lia|].
  destruct (Z.le_gt_cases 4 i) as [Hge|Hlt].
  - now apply read_loop_overshift.
  - cbn [read_loop].
    destruct (data !! Z.to_nat i); [|reflexivity].
    destruct (shl_int z (i * 8)); [|reflexivity].
    apply IH; lia.
Qed.

(** A read of five bytes or more has no defined value. *)
Lemma read_loop_five_or_more (data : list Z) (todo : nat) :
  (5 <= todo)%nat -> read_loop data 0 todo 0 = None.
Proof. intros H. apply read_loop_reaches_overshift; lia. Qed.

Lemma read_loop_step (data : list Z) (i value d : Z) (todo : nat) :
  data !! Z.to_nat i = Some d -> 0 <= i < 4 ->
  read_loop data i (S todo) value
  = read_loop data (i + 1) todo (Z.lor value (u64 (s32 (d * 2 ^ (i * 8))))).
Proof.
  intros Hd Hi. cbn [read_loop]. rewrite Hd.
  now rewrite shl_int_in_range by lia.
Qed.

Ltac zmod := unfold u64, s32, is_byte in *; Z.div_mod_to_equations; lia.

(** A byte shifted by 0, 8 or 16 stays a positive [int]. *)
Lemma byte_shifted_low (d k : Z) :
  is_byte d -> k = 0 \/ k = 8 \/ k = 16 ->
  u64 (s32 (d * 2 ^ k)) = d * 2 ^ k.
Proof. intros Hd [ -> | [ -> | -> ] ]; zmod. Qed.

(** A byte shifted by 24 is a negative [int] when its top bit is set;
    the conversion to [uint64_t] then sets the 32 high bits. *)
Lemma byte_shifted_24 (d : Z) :
  is_byte d ->
  u64 (s32 (d * 2 ^ 24))
  = (if d <? 128 then d else d + (2 ^ 40 - 2 ^ 8)) * 2 ^ 24.
Proof.
  intros Hd. destruct (Z.ltb_spec d 128); zmod.
Qed.

(** For up to four bytes the loop yields the little-endian value of the
    bytes, taken as an [int] and converted to [uint64_t]: with four
    bytes and the top bit of the last one set, the 32 high bits of the
    result are set. *)
Lemma read_loop_up_to_four (data : list Z) (n : nat) :
  Forall is_byte data -> (n <= 4)%nat -> (n <= length data)%nat ->
  read_loop data 0 n 0 = Some (u64 (s32 (of_le (firstn n data)))).
Proof.
  intros Hb Hn Hlen.
  destruct n as [|[|[|[|[|n]]]]]; [| | | | | lia].
  - reflexivity.
  - destruct data as [|d0 data]; [cbn in Hlen; lia|].
    inversion Hb as [|? ? H0 _]; subst.
    rewrite (read_loop_step _ 0 _ d0) by (reflexivity || lia).
    cbn [read_loop firstn]; rewrite firstn_O; cbn [of_le]. change (0 * 8) with 0.
    rewrite byte_shifted_low by auto. rewrite Z.lor_0_l.
    f_equal. zmod.
  - destruct data as [|d0 [|d1 data]]; try (cbn in Hlen; lia).
    inversion Hb as [|? ? H0 Hb1]; subst.
    inversion Hb1 as [|? ? H1 _]; subst.
    rewrite (read_loop_step _ 0 _ d0) by (reflexivity || lia).
    rewrite (read_loop_step _ (0 + 1) _ d1) by (reflexivity || lia).
    cbn [read_loop firstn]; rewrite firstn_O; cbn [of_le].
    change (0 * 8) with 0. change ((0 + 1) * 8) with 8.
    rewrite !byte_shifted_low by auto. rewrite Z.lor_0_l.
    rewrite lor_low_high by zmod.
    f_equal. zmod.
  - destruct data as [|d0 [|d1 [|d2 data]]]; try (cbn in Hlen; lia).
    inversion Hb as [|? ? H0 Hb1]; subst.
    inversion Hb1 as [|? ? H1 Hb2]; subst.
    inversion Hb2 as [|? ? H2 _]; subst.
    rewrite (read_loop_step _ 0 _ d0) by (reflexivity || lia).
    rewrite (read_loop_step _ (0 + 1) _ d1) by (reflexivity || lia).
    rewrite (read_loop_step _ (0 + 1 + 1) _ d2) by (reflexivity || lia).
    cbn [read_loop firstn]; rewrite firstn_O; cbn [of_le].
    change (0 * 8) with 0. change ((0 + 1) * 8) with 8.
    change ((0 + 1 + 1) * 8) with 16.
    rewrite !byte_shifted_low by auto. rewrite Z.lor_0_l.
    rewrite (lor_low_high (d0 * 2 ^ 0)) by zmod.
    rewrite lor_low_high by zmod.
    f_equal. zmod.
  - destruct data as [|d0 [|d1 [|d2 [|d3 data]]]]; try (cbn in Hlen; lia).
    inversion Hb as [|? ? H0 Hb1]; subst.
    inversion Hb1 as [|? ? H1 Hb2]; subst.
    inversion Hb2 as [|? ? H2 Hb3]; subst.
    inversion Hb3 as [|? ? H3 _]; subst.
    rewrite (read_loop_step _ 0 _ d0) by (reflexivity || lia).
    rewrite (read_loop_step _ (0 + 1) _ d1) by (reflexivity || lia).
    rewrite (read_loop_step _ (0 + 1 + 1) _ d2) by (reflexivity || lia).
    rewrite (read_loop_step _ (0 + 1 + 1 + 1) _ d3) by (reflexivity || lia).
    cbn [read_loop firstn]; rewrite firstn_O; cbn [of_le].
    change (0 * 8) with 0. change ((0 + 1) * 8) with 8.
    change ((0 + 1 + 1) * 8) with 16. change ((0 + 1 + 1 + 1) * 8) with 24.
    rewrite !byte_shifted_low by auto. rewrite byte_shifted_24 by auto.
    rewrite Z.lor_0_l.
    rewrite (lor_low_high (d0 * 2 ^ 0)) by zmod.
    rewrite (lor_low_high (d0 * 2 ^ 0 + d1 * 2 ^ 8)) by zmod.
    rewrite lor_low_high by zmod.
    f_equal. destruct (Z.ltb_spec d3 128); zmod.
Qed.

(** Where the value is the little-endian value itself: up to three
    bytes, or four with the top bit of the last one clear. *)
Lemma read_loop_little_endian (data : list Z) (n : nat) :
  Forall is_byte data -> (n <= 4)%nat -> (n <= length data)%nat ->
  of_le (firstn n data) < 2 ^ 31 ->
  read_loop data 0 n 0 = Some (of_le (firstn n data)).
Proof.
  intros Hb Hn Hlen Hlt. rewrite read_loop_up_to_four by assumption.
  f_equal.
  assert (0 <= of_le (firstn n data)) as Hnn.
  { assert (Forall is_byte (firstn n data)) as Hf by now apply Forall_take.
    clear -Hf. induction Hf as [|b bs Hbb _ IH]; cbn [of_le]; unfold is_byte in *; lia. }
  zmod.
Qed.

(* ------------------------------------------------------------------ *)
(** * Running the memory slave                                          *)
(* ------------------------------------------------------------------ *)

Lemma length_mem_load (mem : Z -> Z) (a : Z) (n : nat) :
  length (mem_load mem a n) = n.
Proof.
  revert a; induction n as [|n IH]; intros a; cbn; [reflexivity|].
  now rewrite IH.
Qed.

(** A request that fails one of the three assertions is not served:
    the machine is left as it was. *)
Lemma rp_cmd_rw_guard_fails (p : RemotePortDynPkt) (dir : DMADirection)
    (m : Machine) (w : assertion) :
  first_failed_guard p = Some w ->
  rp_cmd_rw p dir m = (AssertionFailed w, m).
Proof.
  unfold first_failed_guard, rp_cmd_rw. cbv zeta.
  destruct (width (pkt p) =? 0); cbn [negb].
  - destruct (stream_width (pkt p) =? len (pkt p)); cbn [negb].
    + destruct (Z.land (hdr_flags (ba_hdr (pkt p))) RP_PKT_FLAGS_response =? 0);
        cbn [negb]; [discriminate|].
      intros [= <-]. reflexivity.
    + intros [= <-]. reflexivity.
  - intros [= <-]. reflexivity.
Qed.

Lemma first_failed_guard_none (p : RemotePortDynPkt) :
  first_failed_guard p = None ->
  (width (pkt p) =? 0) = true
  /\ (stream_width (pkt p) =? len (pkt p)) = true
  /\ (Z.land (hdr_flags (ba_hdr (pkt p))) RP_PKT_FLAGS_response =? 0) = true.
Proof.
  unfold first_failed_guard.
  destruct (width (pkt p) =? 0); cbn [negb]; [|discriminate].
  destruct (stream_width (pkt p) =? len (pkt p)); cbn [negb]; [|discriminate].
  destruct (Z.land (hdr_flags (ba_hdr (pkt p))) RP_PKT_FLAGS_response =? 0);
    cbn [negb]; [|discriminate].
  auto.
Qed.

(** What the slave does with a read request that passes the assertions. *)
Lemma rp_memory_master_read_run (p : RemotePortDynPkt) (m : Machine) :
  first_failed_guard p = None -> 0 <= len (pkt p) < 2 ^ 32 ->
  rp_memory_master_read p m
  = let data := mem_load (address_space_memory m) (addr (pkt p))
                         (Z.to_nat (len (pkt p))) in
    let bytes := busaccess_bytes (slave_response p DMA_DIRECTION_TO_DEVICE)
                 ++ data in
    (Returned tt,
     set_chr_out (chr_out m ++ bytes)
       (set_calls (calls m ++ [Call_dma_memory_rw (addr (pkt p)) (len (pkt p)) false;
                               Call_rp_encode RP_CMD_read (hdr_id (ba_hdr (pkt p))) true;
                               Call_rp_write bytes]) m)).
Proof.
  intros Hg Hlen. apply first_failed_guard_none in Hg as (Hw & Hs & Hf).
  unfold rp_memory_master_read, rp_cmd_rw. cbv zeta.
  cbn [is_from_device]. rewrite Hw, Hs, Hf.
  run1. run1. run1.
  unfold dma_memory_rw at 1.
  erewrite bind_returned
    by (erewrite bind_returned by apply run_log; reflexivity).
  norm. run1.
  fold (slave_response p DMA_DIRECTION_TO_DEVICE).
  change (snd (rp_encode_read_resp _ _ _ _ _ _ _ _))
    with (sizeof_rp_pkt_busaccess + u32 (len (pkt p))).
  unfold u32 at 1. rewrite Z.mod_small by exact Hlen.
  rewrite Z.eqb_refl. run1.
  rewrite firstn_all2.
  2:{ rewrite length_app, length_busaccess_bytes, length_mem_load.
      unfold sizeof_rp_pkt_busaccess, sizeof_rp_pkt_hdr. lia. }
  rewrite run_rp_write. unfold set_chr_out, set_calls. norm.
  do 2 f_equal. rewrite <- !app_assoc. reflexivity.
Qed.

(** What the slave does with a write request that passes the assertions
    and carries its data. *)
Lemma rp_memory_master_write_run (p : RemotePortDynPkt) (m : Machine) :
  first_failed_guard p = None ->
  0 <= len (pkt p) <= Z.of_nat (length (trailing p)) ->
  rp_memory_master_write p m
  = let bytes := busaccess_bytes (slave_response p DMA_DIRECTION_FROM_DEVICE) in
    (Returned tt,
     set_chr_out (chr_out m ++ bytes)
       (set_address_space_memory
          (mem_store (address_space_memory m) (addr (pkt p))
                     (firstn (Z.to_nat (len (pkt p))) (trailing p)))
          (set_calls (calls m ++ [Call_dma_memory_rw (addr (pkt p)) (len (pkt p)) true;
                                  Call_rp_encode RP_CMD_write (hdr_id (ba_hdr (pkt p))) true;
                                  Call_rp_write bytes]) m))).
Proof.
  intros Hg Hlen. apply first_failed_guard_none in Hg as (Hw & Hs & Hf).
  unfold rp_memory_master_write, rp_cmd_rw. cbv zeta.
  cbn [is_from_device]. rewrite Hw, Hs, Hf.
  run1. run1. run1.
  unfold dma_memory_rw at 1.
  replace (len (pkt p) <=? Z.of_nat (length (trailing p))) with true
    by (symmetry; apply Z.leb_le; lia).
  erewrite bind_returned
    by (erewrite bind_returned by apply run_log; reflexivity).
  norm. run1.
  fold (slave_response p DMA_DIRECTION_FROM_DEVICE).
  change (snd (rp_encode_write_resp _ _ _ _ _ _ _ _))
    with sizeof_rp_pkt_busaccess.
  rewrite Z.eqb_refl. run1.
  rewrite app_nil_r, take_busaccess_bytes.
  rewrite run_rp_write. unfold set_chr_out, set_calls, set_address_space_memory. norm.
  do 2 f_equal. rewrite <- !app_assoc. reflexivity.
Qed.

(** A write request whose data is shorter than its length makes the
    slave read past the packet. *)
Lemma rp_memory_master_write_short (p : RemotePortDynPkt) (m : Machine) :
  first_failed_guard p = None ->
  Z.of_nat (length (trailing p)) < len (pkt p) ->
  fst (rp_memory_master_write p m) = Undefined.
Proof.
  intros Hg Hlen. apply first_failed_guard_none in Hg as (Hw & Hs & Hf).
  unfold rp_memory_master_write, rp_cmd_rw. cbv zeta.
  cbn [is_from_device]. rewrite Hw, Hs, Hf.
  run1. run1. run1.
  unfold dma_memory_rw at 1.
  replace (len (pkt p) <=? Z.of_nat (length (trailing p))) with false
    by (symmetry; apply Z.leb_gt; lia).
  erewrite bind_undefined; [reflexivity|].
  erewrite bind_returned by apply run_log. reflexivity.
Qed.

(* ------------------------------------------------------------------ *)
(** * The memory master: value of a read                                *)
(* ------------------------------------------------------------------ *)

(** The value rp_io_read returns for an access of up to four bytes. *)
Lemma rp_io_read_value (m : Machine) (map : RemotePortMap) (addr size : Z)
    (rsp : RemotePortDynPkt) (rest : list RemotePortDynPkt) :
  id_in_range m -> rsp_mutex m = false -> rsp_inbox m = rsp :: rest ->
  hdr_id (ba_hdr (pkt rsp)) = next_id m ->
  0 <= size <= 4 -> Forall is_byte (trailing rsp) ->
  size <= Z.of_nat (length (trailing rsp)) ->
  fst (rp_io_read map addr size m)
  = Returned (u64 (s32 (of_le (firstn (Z.to_nat size) (trailing rsp))))).
Proof.
  intros Hid Hmx Hin Heq Hsz Hb Hlen.
  rewrite (rp_io_read_run m map addr size rsp rest) by assumption.
  cbv zeta. rewrite Heq, Z.eqb_refl.
  rewrite read_loop_up_to_four by (assumption || lia).
  reflexivity.
Qed.

(** C1, at the input on which the code departs from it.  A four-byte
    read whose response carries the data AA BB CC DD does not return
    0xDDCCBBAA, the little-endian value of the data: [data[3] << 24] is
    a negative [int], and its conversion to [uint64_t] sets the 32 high
    bits, so the read returns 0xFFFFFFFFDDCCBBAA. *)
Theorem rp_io_read_four_bytes_sign_extended (m : Machine) (map : RemotePortMap)
    (addr : Z) (rsp : RemotePortDynPkt) (rest : list RemotePortDynPkt) :
  id_in_range m -> rsp_mutex m = false -> rsp_inbox m = rsp :: rest ->
  hdr_id (ba_hdr (pkt rsp)) = next_id m ->
  trailing rsp = [0xAA; 0xBB; 0xCC; 0xDD] ->
  fst (rp_io_read map addr 4 m) = Returned 0xFFFFFFFFDDCCBBAA
  /\ of_le (trailing rsp) = 0xDDCCBBAA
  /\ fst (rp_io_read map addr 4 m) <> Returned (of_le (trailing rsp)).
Proof.
  intros Hid Hmx Hin Heq Hdata.
  assert (fst (rp_io_read map addr 4 m) = Returned 0xFFFFFFFFDDCCBBAA) as Hv.
  { rewrite (rp_io_read_run m map addr 4 rsp rest) by assumption.
    cbv zeta. rewrite Heq, Z.eqb_refl, Hdata. reflexivity. }
  rewrite Hv, Hdata.
  split; [reflexivity | split; [reflexivity | ]].
  vm_compute. discriminate.
Qed.

(* ------------------------------------------------------------------ *)
(** * The memory master: correlation of the response                    *)
(* ------------------------------------------------------------------ *)


(* ------------------------------------------------------------------ *)
(** * The memory master: the calls of a bus access                      *)
(* ------------------------------------------------------------------ *)

Lemma calls_of_app {A} (c : M A) (m : Machine) (o : outcome A)
    (m' : Machine) (tr : list call) :
  c m = (o, m') -> calls m' = calls m ++ tr -> calls_of c m = tr.
Proof.
  intros Hrun Hcalls. unfold calls_of. rewrite Hrun. cbn [snd].
  rewrite Hcalls. apply drop_app_length.
Qed.

Lemma sent_by_app {A} (c : M A) (m : Machine) (o : outcome A)
    (m' : Machine) (bytes : list Z) :
  c m = (o, m') -> chr_out m' = chr_out m ++ bytes -> sent_by c m = bytes.
Proof.
  intros Hrun Hout. unfold sent_by. rewrite Hrun. cbn [snd].
  rewrite Hout. apply drop_app_length.
Qed.

Lemma under_mutex_bus_access (cmd id clk rclk : Z) (bytes : list Z) :
  under_mutex send_and_wait false
    (request_calls cmd id bytes ++ response_calls clk rclk) = true
  /\ under_mutex full_cycle false
       (request_calls cmd id bytes ++ response_calls clk rclk) = false.
Proof. split; reflexivity. Qed.



(* ------------------------------------------------------------------ *)
(** * The memory master: the bytes of a write                           *)
(* ------------------------------------------------------------------ *)

Lemma machine_eq (m1 m2 : Machine) :
  vm_clk m1 = vm_clk m2 -> clk_base m1 = clk_base m2 ->
  next_id m1 = next_id m2 -> rsp_mutex m1 = rsp_mutex m2 ->
  chr_out m1 = chr_out m2 -> rsp_inbox m1 = rsp_inbox m2 ->
  peer_clk m1 = peer_clk m2 -> sync_timer_base m1 = sync_timer_base m2 ->
  address_space_memory m1 = address_space_memory m2 ->
  calls m1 = calls m2 -> m1 = m2.
Proof.
  destruct m1, m2. cbn. intros. subst. reflexivity.
Qed.

(** Without a response the caller of rp_io_write stays blocked, with the
    request sent. *)
Lemma rp_io_write_no_response (m : Machine) (map : RemotePortMap)
    (addr value size : Z) :
  0 <= size <= 8 -> rsp_mutex m = false -> rsp_inbox m = [] ->
  rp_io_write map addr value size m
  = (Blocked,
     after_request m RP_CMD_write
       (busaccess_bytes (write_request map addr size m)
        ++ le_bytes (Z.to_nat size) value) []).
Proof.
  intros Hsz Hmx Hin.
  unfold rp_io_write. cbv zeta.
  replace (size <=? 8) with true by (symmetry; apply Z.leb_le; lia).
  run1. run1. run1. run1.
  erewrite bind_returned by (apply run_rp_rsp_mutex_lock; exact Hmx). norm.
  run1.
  fold (request_clk m). fold (write_request map addr size m).
  change (snd (rp_encode_write _ _ _ _ _ _ _ _)) with sizeof_rp_pkt_busaccess.
  rewrite take_pay_bytes by exact Hsz.
  erewrite bind_blocked.
  2:{ unfold rp_wait_resp. erewrite bind_returned by apply run_log.
      norm. rewrite Hin. reflexivity. }
  f_equal. apply machine_eq; try reflexivity.
  - exact Hin.
  - cbn [calls after_request set_calls request_calls].
    rewrite <- !app_assoc. reflexivity.
Qed.

(** The bytes rp_io_write sends, whatever the peer does next. *)
Lemma rp_io_write_chr_out (m : Machine) (map : RemotePortMap)
    (addr value size : Z) :
  0 <= size <= 8 -> id_in_range m -> rsp_mutex m = false ->
  chr_out (snd (rp_io_write map addr value size m))
  = chr_out m ++ busaccess_bytes (write_request map addr size m)
              ++ le_bytes (Z.to_nat size) value.
Proof.
  intros Hsz Hid Hmx.
  destruct (rsp_inbox m) as [|rsp rest] eqn:Hin.
  - now rewrite rp_io_write_no_response by assumption.
  - rewrite (rp_io_write_run m map addr value size rsp rest) by assumption.
    cbv zeta. now destruct (hdr_id (ba_hdr (pkt rsp)) =? next_id m).
Qed.

(** C5.  A write of [size] bytes, at most eight, sends the encoded
    bus-access packet followed by exactly the [size] low bytes of the
    value, least significant first; the number of bytes written is the
    length the encoder returns plus [size]; the length field of the
    packet is [size].  A two-byte write of 0x1234 sends 34 12 after the
    packet, with a length field of 2. *)
Theorem rp_io_write_data_little_endian (m : Machine) (map : RemotePortMap)
    (addr value size : Z) :
  0 <= size <= 8 -> id_in_range m -> rsp_mutex m = false ->
  let p := write_request map addr size m in
  let encoded_length :=
    snd (rp_encode_write (next_id m) (master_rp_dev (parent map))
           (request_clk m) (u64 (addr + offset map)) 0 size 0 size) in
  let sent := sent_by (rp_io_write map addr value size) m in
  sent = busaccess_bytes p ++ le_bytes (Z.to_nat size) value
  /\ Z.of_nat (length (busaccess_bytes p)) = encoded_length
  /\ Z.of_nat (length sent) = encoded_length + size
  /\ of_le (le_bytes (Z.to_nat size) value) = value mod 2 ^ (8 * size)
  /\ be32_to_cpu (len p) = size
  /\ mem_int 4 (len p) = be_bytes 4 size
  /\ le_bytes 2 0x1234 = [0x34; 0x12]
  /\ be_bytes 4 2 = [0; 0; 0; 2].
Proof.
  intros Hsz Hid Hmx p encoded_length sent.
  assert (sent = busaccess_bytes p ++ le_bytes (Z.to_nat size) value) as Hs.
  { unfold sent, sent_by. rewrite rp_io_write_chr_out by assumption.
    apply drop_app_length. }
  assert (u32 size = size) as Hu by (unfold u32; apply Z.mod_small; lia).
  split; [exact Hs|].
  split; [now rewrite length_busaccess_bytes|].
  split.
  { rewrite Hs, length_app, length_busaccess_bytes, length_le_bytes.
    unfold encoded_length, rp_encode_write. cbn [snd].
    unfold sizeof_rp_pkt_busaccess, sizeof_rp_pkt_hdr. lia. }
  split.
  { rewrite of_le_le_bytes. f_equal.
    replace (8 * size) with (8 * Z.of_nat (Z.to_nat size)) by lia.
    rewrite Z.pow_mul_r by lia.
    reflexivity. }
  split.
  { unfold p, write_request, rp_encode_write. cbn. rewrite Hu.
    apply be32_to_cpu_htobe32. lia. }
  split.
  { unfold p, write_request, rp_encode_write. cbn [fst len rp_encode_busaccess_common].
    now rewrite mem_int_htobe32, Hu. }
  split; reflexivity.
Qed.

(* ------------------------------------------------------------------ *)
(** * The GPIO device                                                   *)
(* ------------------------------------------------------------------ *)

(** C7.  rp_gpio_handler returns from every machine, whether or not the
    mutex is held or a response is waiting.  It makes three calls:
    it samples the clock, encodes one interrupt packet whose id is the
    device's current id, and writes that packet.  It takes no mutex and
    waits for no response; the mutex and the responses of the peer are
    as they were.  The id is fresh: the device's counter moves on, and
    the next packet has another id. *)
Theorem rp_gpio_handler_fire_and_forget (m : Machine) (s : RemotePortGPIO)
    (irq level : Z) :
  let r := rp_gpio_handler s irq level m in
  let p := gpio_packet s irq level m in
  (exists s', fst r = Returned s'
              /\ current_id s' = u64 (current_id s + 1)
              /\ u32 (current_id s') <> u32 (current_id s))
  /\ calls_of (rp_gpio_handler s irq level) m
     = [Call_rp_normalized_vmclk;
        Call_rp_encode RP_CMD_interrupt (u32 (current_id s)) false;
        Call_rp_write (interrupt_bytes p)]
  /\ sent_by (rp_gpio_handler s irq level) m = interrupt_bytes p
  /\ length (interrupt_bytes p) = Z.to_nat sizeof_rp_pkt_interrupt
  /\ mem_int 4 (hdr_cmd (irq_hdr p)) = be_bytes 4 RP_CMD_interrupt
  /\ mem_int 4 (hdr_id (irq_hdr p)) = be_bytes 4 (u32 (current_id s))
  /\ Forall (fun c => is_lock_or_wait c = false)
            (calls_of (rp_gpio_handler s irq level) m)
  /\ rsp_mutex (snd r) = rsp_mutex m
  /\ rsp_inbox (snd r) = rsp_inbox m.
Proof.
  intros r p.
  pose proof (rp_gpio_handler_run m s irq level) as Hrun. cbv zeta in Hrun.
  fold p in Hrun.
  assert (calls_of (rp_gpio_handler s irq level) m
          = [Call_rp_normalized_vmclk;
             Call_rp_encode RP_CMD_interrupt (u32 (current_id s)) false;
             Call_rp_write (interrupt_bytes p)]) as Hcalls.
  { eapply calls_of_app; [exact Hrun | reflexivity]. }
  split.
  { eexists. unfold r. rewrite Hrun. cbn [fst current_id].
    split; [reflexivity|]. split; [reflexivity|].
    unfold u32, u64. cbn [current_id].
    rewrite Z.mod_mod_divide by (exists (2 ^ 32); reflexivity).
    intros Heq. apply Z.cong_iff_0 in Heq.
    replace (current_id s + 1 - current_id s) with 1 in Heq by lia.
    discriminate Heq. }
  split; [exact Hcalls|].
  split.
  { eapply sent_by_app; [exact Hrun | reflexivity]. }
  split; [apply length_interrupt_bytes|].
  split.
  { unfold p, gpio_packet, rp_encode_interrupt, rp_encode_hdr.
    cbn [fst irq_hdr hdr_cmd]. now rewrite mem_int_htobe32. }
  split.
  { unfold p, gpio_packet, rp_encode_interrupt, rp_encode_hdr.
    cbn [fst irq_hdr hdr_id]. rewrite mem_int_htobe32.
    f_equal. unfold u32. apply Z.mod_mod. lia. }
  split.
  { rewrite Hcalls. repeat constructor. }
  unfold r. rewrite Hrun. split; reflexivity.
Qed.

(* ------------------------------------------------------------------ *)
(** * The tracked peer clock                                            *)
(* ------------------------------------------------------------------ *)

Lemma reconciliations_cons (lclk rclk : Z) (clks : list (Z * Z)) (m : Machine) :
  reconciliations ((lclk, rclk) :: clks) m
  = reconciliations clks
      (set_peer_clk (advance_peer_clk (peer_clk m) rclk)
         (set_calls (calls m ++ [Call_rp_sync_vmclock lclk rclk]) m)).
Proof.
  cbn [reconciliations]. now erewrite bind_returned by apply run_rp_sync_vmclock.
Qed.

Lemma reconciliations_return (clks : list (Z * Z)) :
  forall m, fst (reconciliations clks m) = Returned tt.
Proof.
  induction clks as [|[lclk rclk] clks IH]; intros m; [reflexivity|].
  rewrite reconciliations_cons. apply IH.
Qed.

Lemma reconciliations_peer_clk (clks : list (Z * Z)) :
  forall m,
  peer_clk (snd (reconciliations clks m))
  = fold_left advance_peer_clk (List.map snd clks) (peer_clk m).
Proof.
  induction clks as [|[lclk rclk] clks IH]; intros m; [reflexivity|].
  rewrite reconciliations_cons, IH. reflexivity.
Qed.

Lemma fold_advance_ge (ts : list Z) :
  forall t, t <= fold_left advance_peer_clk ts t.
Proof.
  induction ts as [|u ts IH]; intros t; cbn [fold_left]; [lia|].
  specialize (IH (advance_peer_clk t u)). unfold advance_peer_clk in *. lia.
Qed.

Lemma last_any_default (l : list Z) :
  forall x d d', List.last (x :: l) d = List.last (x :: l) d'.
Proof.
  induction l as [|y l IH]; intros x d d'; [reflexivity|].
  change (List.last (y :: l) d = List.last (y :: l) d'). apply IH.
Qed.

Lemma fold_advance_increasing (ts : list Z) :
  forall t0 t, t0 <= t -> increasing_from t ts ->
  fold_left advance_peer_clk (t :: ts) t0 = List.last (t :: ts) t.
Proof.
  induction ts as [|u ts IH]; intros t0 t Ht Hinc.
  - cbn. unfold advance_peer_clk. lia.
  - destruct Hinc as [Htu Hinc].
    change (fold_left advance_peer_clk (t :: u :: ts) t0)
      with (fold_left advance_peer_clk (u :: ts) (advance_peer_clk t0 t)).
    rewrite (IH (advance_peer_clk t0 t) u);
      [| unfold advance_peer_clk; lia | exact Hinc].
    change (List.last (t :: u :: ts) t) with (List.last (u :: ts) t).
    apply last_any_default.
Qed.

(** C4.  The tracked peer clock never regresses.  Every reconciliation
    leaves it at least where it was and at least at the peer's
    timestamp; after any sequence of reconciliations, and after any
    longer one, it has not decreased.  When the peer's timestamps are
    strictly increasing, from the tracked value on, it ends at the last
    of them.  After the timestamps 500 and 480 it is at least 500, and
    exactly 500 when it was at most 500 before. *)
Theorem peer_clk_is_monotonic :
  (forall lclk rclk m,
     fst (rp_sync_vmclock lclk rclk m) = Returned tt
     /\ peer_clk m <= peer_clk (snd (rp_sync_vmclock lclk rclk m))
     /\ rclk <= peer_clk (snd (rp_sync_vmclock lclk rclk m)))
  /\ (forall clks more m,
        fst (reconciliations clks m) = Returned tt
        /\ peer_clk m <= peer_clk (snd (reconciliations clks m))
        /\ peer_clk (snd (reconciliations clks m))
           <= peer_clk (snd (reconciliations (clks ++ more) m)))
  /\ (forall clks t ts m,
        List.map snd clks = t :: ts -> increasing_from t ts ->
        peer_clk m <= t ->
        peer_clk (snd (reconciliations clks m)) = List.last (t :: ts) t)
  /\ (forall lclk1 lclk2 m,
        let m' := snd (reconciliations [(lclk1, 500); (lclk2, 480)] m) in
        500 <= peer_clk m' /\ (peer_clk m <= 500 -> peer_clk m' = 500)).
Proof.
  split; [|split; [|split]].
  - intros lclk rclk m. rewrite run_rp_sync_vmclock.
    cbn [fst snd peer_clk set_peer_clk]. unfold advance_peer_clk.
    split; [reflexivity | lia].
  - intros clks more m. split; [apply reconciliations_return|].
    rewrite !reconciliations_peer_clk. split; [apply fold_advance_ge|].
    rewrite map_app, fold_left_app. apply fold_advance_ge.
  - intros clks t ts m Hmap Hinc Hle.
    rewrite reconciliations_peer_clk, Hmap.
    now apply fold_advance_increasing.
  - intros lclk1 lclk2 m m'. unfold m'.
    rewrite reconciliations_peer_clk. cbn [List.map snd fold_left].
    unfold advance_peer_clk. lia.
Qed.

(* ------------------------------------------------------------------ *)
(** * The memory slave                                                  *)
(* ------------------------------------------------------------------ *)

(** C8.  The response of the slave carries data exactly for a read.  A
    read request that passes the assertions, whatever follows it, is
    answered with the encoded response followed by the [len] bytes
    fetched from memory, the fixed size plus [len] bytes in all.  A
    write request that passes them and carries its [len] bytes of data
    is answered with the encoded response alone, the fixed size.  The
    header of each response announces the same payload. *)
Theorem slave_response_data_only_for_reads (p : RemotePortDynPkt) (m : Machine) :
  first_failed_guard p = None -> busaccess_in_range (pkt p) ->
  let fetched := mem_load (address_space_memory m) (addr (pkt p))
                          (Z.to_nat (len (pkt p))) in
  let rd := slave_response p DMA_DIRECTION_TO_DEVICE in
  let wr := slave_response p DMA_DIRECTION_FROM_DEVICE in
  (fst (rp_memory_master_read p m) = Returned tt
   /\ sent_by (rp_memory_master_read p) m = busaccess_bytes rd ++ fetched
   /\ Z.of_nat (length fetched) = len (pkt p)
   /\ Z.of_nat (length (sent_by (rp_memory_master_read p) m))
      = sizeof_rp_pkt_busaccess + len (pkt p)
   /\ mem_int 4 (hdr_len (ba_hdr rd))
      = be_bytes 4
          (u32 (sizeof_rp_pkt_busaccess - sizeof_rp_pkt_hdr + len (pkt p))))
  /\ (len (pkt p) <= Z.of_nat (length (trailing p)) ->
      fst (rp_memory_master_write p m) = Returned tt
      /\ sent_by (rp_memory_master_write p) m = busaccess_bytes wr
      /\ Z.of_nat (length (sent_by (rp_memory_master_write p) m))
         = sizeof_rp_pkt_busaccess
      /\ mem_int 4 (hdr_len (ba_hdr wr))
         = be_bytes 4 (sizeof_rp_pkt_busaccess - sizeof_rp_pkt_hdr)).
Proof.
  intros Hg [Hlen Haddr] fetched rd wr. split.
  - pose proof (rp_memory_master_read_run p m Hg Hlen) as Hr. cbv zeta in Hr.
    fold fetched in Hr. fold rd in Hr.
    assert (sent_by (rp_memory_master_read p) m = busaccess_bytes rd ++ fetched)
      as Hsr by (eapply sent_by_app; [exact Hr | reflexivity]).
    assert (u32 (len (pkt p)) = len (pkt p)) as Hu
      by (unfold u32; apply Z.mod_small; lia).
    split; [now rewrite Hr|]. split; [exact Hsr|].
    split; [unfold fetched; rewrite length_mem_load; lia|].
    split.
    { rewrite Hsr, length_app, length_busaccess_bytes.
      unfold fetched. rewrite length_mem_load.
      unfold sizeof_rp_pkt_busaccess, sizeof_rp_pkt_hdr. lia. }
    unfold rd, slave_response. cbn [is_from_device fst rp_encode_read_resp
      rp_encode_busaccess_common ba_hdr rp_encode_hdr hdr_len].
    now rewrite mem_int_htobe32, Hu.
  - intros Htr.
    assert (0 <= len (pkt p) <= Z.of_nat (length (trailing p))) as Hlen'
      by lia.
    pose proof (rp_memory_master_write_run p m Hg Hlen') as Hw.
    cbv zeta in Hw. fold wr in Hw.
    assert (sent_by (rp_memory_master_write p) m = busaccess_bytes wr)
      as Hsw by (eapply sent_by_app; [exact Hw | reflexivity]).
    split; [now rewrite Hw|]. split; [exact Hsw|].
    split.
    { rewrite Hsw, length_busaccess_bytes. reflexivity. }
    unfold wr, slave_response. cbn [is_from_device fst rp_encode_write_resp
      rp_encode_busaccess_common ba_hdr rp_encode_hdr hdr_len].
    now rewrite mem_int_htobe32.
Qed.

(** C9.  The slave serves a request only if it is an incremental access
    and not a response.  A request whose width is not zero, whose stream
    width is not its length, or whose response flag is set stops at the
    assertion that says so, before memory is touched or anything is
    written: the machine is as it was.  A request that meets the three
    conditions fails no assertion. *)
Theorem slave_serves_incremental_requests_only (p : RemotePortDynPkt)
    (dir : DMADirection) (m : Machine) :
  0 <= len (pkt p) < 2 ^ 32 ->
  let response_flag :=
    Z.land (hdr_flags (ba_hdr (pkt p))) RP_PKT_FLAGS_response in
  (width (pkt p) <> 0 ->
     rp_cmd_rw p dir m = (AssertionFailed assert_width, m))
  /\ (width (pkt p) = 0 -> stream_width (pkt p) <> len (pkt p) ->
      rp_cmd_rw p dir m = (AssertionFailed assert_stream_width, m))
  /\ (width (pkt p) = 0 -> stream_width (pkt p) = len (pkt p) ->
      response_flag <> 0 ->
      rp_cmd_rw p dir m = (AssertionFailed assert_not_response, m))
  /\ (width (pkt p) <> 0 \/ stream_width (pkt p) <> len (pkt p)
      \/ response_flag <> 0 ->
      exists w, rp_cmd_rw p dir m = (AssertionFailed w, m))
  /\ (width (pkt p) = 0 -> stream_width (pkt p) = len (pkt p) ->
      response_flag = 0 ->
      forall w, fst (rp_cmd_rw p dir m) <> AssertionFailed w).
Proof.
  intros Hlen response_flag.
  assert (forall w, first_failed_guard p = Some w ->
                    rp_cmd_rw p dir m = (AssertionFailed w, m)) as Hfail
    by (intros w; apply rp_cmd_rw_guard_fails).
  unfold first_failed_guard in Hfail. fold response_flag in Hfail.
  destruct (Z.eqb_spec (width (pkt p)) 0) as [Hw|Hw];
    destruct (Z.eqb_spec (stream_width (pkt p)) (len (pkt p))) as [Hs|Hs];
    destruct (Z.eqb_spec response_flag 0) as [Hf|Hf];
    cbn [negb] in Hfail.
  all: repeat split; intros; try contradiction; try (now apply Hfail);
    try (eexists; now apply Hfail).
  all: try (match goal with H : _ \/ _ |- _ => destruct H as [?|[?|?]] end;
            contradiction).
  (* the request meets the three conditions *)
  assert (first_failed_guard p = None) as Hg.
  { unfold first_failed_guard. fold response_flag.
    apply Z.eqb_eq in Hw, Hs, Hf. now rewrite Hw, Hs, Hf. }
  destruct dir.
  - change (rp_cmd_rw p DMA_DIRECTION_TO_DEVICE) with (rp_memory_master_read p).
    rewrite rp_memory_master_read_run by assumption. discriminate.
  - change (rp_cmd_rw p DMA_DIRECTION_FROM_DEVICE)
      with (rp_memory_master_write p).
    destruct (Z.le_gt_cases (len (pkt p)) (Z.of_nat (length (trailing p)))).
    + rewrite rp_memory_master_write_run by (assumption || lia). discriminate.
    + rewrite rp_memory_master_write_short by assumption. discriminate.
Qed.

(* ------------------------------------------------------------------ *)
(** * The GPIO device: inbound interrupts                               *)
(* ------------------------------------------------------------------ *)

(** C10.  rp_gpio_realize gives the device an array of exactly
    [num_gpios] output lines.  rp_gpio_interrupt indexes it with the line
    of the packet, unchecked.  On any device whose array has [num_gpios]
    lines, whatever their levels: for a line within the array it sets
    that line to the value of the packet and changes nothing else,
    neither another line nor another field, so the array keeps its
    length; for a line past the end it is not defined. *)
Theorem rp_gpio_interrupt_sets_one_line (s rpg : RemotePortGPIO)
    (p : rp_pkt_interrupt) :
  0 <= line p ->
  Z.of_nat (length (gpio_out rpg)) = num_gpios rpg ->
  (0 <= num_gpios s ->
   Z.of_nat (length (gpio_out (rp_gpio_realize s)))
   = num_gpios (rp_gpio_realize s)
   /\ num_gpios (rp_gpio_realize s) = num_gpios s)
  /\ (line p < num_gpios rpg ->
      exists rpg',
        rp_gpio_interrupt rpg p = Some rpg'
        /\ gpio_out rpg' = <[Z.to_nat (line p) := val p]> (gpio_out rpg)
        /\ gpio_out rpg' !! Z.to_nat (line p) = Some (val p)
        /\ (forall j, j <> Z.to_nat (line p) ->
                      gpio_out rpg' !! j = gpio_out rpg !! j)
        /\ Z.of_nat (length (gpio_out rpg')) = num_gpios rpg'
        /\ num_gpios rpg' = num_gpios rpg
        /\ current_id rpg' = current_id rpg
        /\ gpio_rp_dev rpg' = gpio_rp_dev rpg)
  /\ (num_gpios rpg <= line p -> rp_gpio_interrupt rpg p = None).
Proof.
  intros Hl Hlen. split; [|split].
  - intros Hn. unfold rp_gpio_realize. cbn [gpio_out num_gpios].
    rewrite length_replicate. split; [lia | reflexivity].
  - intros Hlt. unfold rp_gpio_interrupt. rewrite Hlen.
    replace (0 <=? line p) with true by (symmetry; apply Z.leb_le; lia).
    replace (line p <? num_gpios rpg) with true
      by (symmetry; apply Z.ltb_lt; lia).
    cbn [andb]. eexists. split; [reflexivity|].
    cbn [gpio_out num_gpios current_id gpio_rp_dev].
    split; [reflexivity|].
    split; [apply list_lookup_insert_eq; lia|].
    split; [intros j Hj; apply list_lookup_insert_ne; congruence|].
    split; [rewrite length_insert; exact Hlen|].
    repeat split.
  - intros Hge. unfold rp_gpio_interrupt. rewrite Hlen.
    replace (line p <? num_gpios rpg) with false
      by (symmetry; apply Z.ltb_ge; lia).
    now rewrite andb_false_r.
Qed.

(* ------------------------------------------------------------------ *)
(** * The memory master: the bytes of a read                            *)
(* ------------------------------------------------------------------ *)

(** Without a response the caller of rp_io_read stays blocked, with the
    request sent. *)
Lemma rp_io_read_no_response (m : Machine) (map : RemotePortMap) (a size : Z) :
  rsp_mutex m = false -> rsp_inbox m = [] ->
  rp_io_read map a size m
  = (Blocked,
     after_request m RP_CMD_read
       (busaccess_bytes (read_request map a size m)) []).
Proof.
  intros Hmx Hin.
  unfold rp_io_read. cbv zeta.
  run1. run1. run1.
  erewrite bind_returned by (apply run_rp_rsp_mutex_lock; exact Hmx). norm.
  run1.
  fold (request_clk m). fold (read_request map a size m).
  change (snd (rp_encode_read _ _ _ _ _ _ _ _)) with sizeof_rp_pkt_busaccess.
  rewrite take_busaccess_bytes.
  erewrite bind_blocked.
  2:{ unfold rp_wait_resp. erewrite bind_returned by apply run_log.
      norm. rewrite Hin. reflexivity. }
  f_equal. apply machine_eq; try reflexivity.
  - exact Hin.
  - cbn [calls after_request set_calls request_calls].
    rewrite <- !app_assoc. reflexivity.
Qed.

(** The bytes rp_io_read sends, whatever the peer does next. *)
Lemma rp_io_read_chr_out (m : Machine) (map : RemotePortMap) (a size : Z) :
  id_in_range m -> rsp_mutex m = false ->
  chr_out (snd (rp_io_read map a size m))
  = chr_out m ++ busaccess_bytes (read_request map a size m).
Proof.
  intros Hid Hmx.
  destruct (rsp_inbox m) as [|rsp rest] eqn:Hin.
  - now rewrite rp_io_read_no_response by assumption.
  - rewrite (rp_io_read_run m map a size rsp rest) by assumption.
    cbv zeta. destruct (hdr_id (ba_hdr (pkt rsp)) =? next_id m);
      [destruct (read_loop _ _ _ _)|]; reflexivity.
Qed.

(* ------------------------------------------------------------------ *)
(** * The receiving side: lemmas                                        *)
(* ------------------------------------------------------------------ *)

Lemma of_be_be_bytes (n : nat) (x : Z) :
  0 <= x < 256 ^ Z.of_nat n -> of_be (be_bytes n x) = x.
Proof.
  intros Hx. unfold of_be, be_bytes.
  rewrite rev_involutive, of_le_le_bytes. now apply Z.mod_small.
Qed.

Lemma get_int_be_bytes (n : nat) (x : Z) (rest : list Z) :
  0 <= x < 256 ^ Z.of_nat n ->
  get_int n (be_bytes n x ++ rest) = Some (x, rest).
Proof.
  intros Hx. unfold get_int.
  rewrite length_app, length_be_bytes.
  replace (n + length rest <? n)%nat with false
    by (symmetry; apply Nat.ltb_ge; lia).
  rewrite <- (length_be_bytes n x) at 1 3.
  rewrite take_app_length, drop_app_length.
  now rewrite of_be_be_bytes.
Qed.

Lemma u32_range (x : Z) : 0 <= u32 x < 256 ^ Z.of_nat 4.
Proof. unfold u32. change (256 ^ Z.of_nat 4) with (2 ^ 32). apply Z.mod_pos_bound. lia. Qed.

Lemma u64_range (x : Z) : 0 <= u64 x < 256 ^ Z.of_nat 8.
Proof. unfold u64. change (256 ^ Z.of_nat 8) with (2 ^ 64). apply Z.mod_pos_bound. lia. Qed.

Lemma u32_in_u64 (x : Z) : 0 <= u32 x < 256 ^ Z.of_nat 8.
Proof.
  pose proof (u32_range x) as H.
  change (256 ^ Z.of_nat 4) with (2 ^ 32) in H.
  change (256 ^ Z.of_nat 8) with (2 ^ 64). lia.
Qed.

(** A 32-bit field written by an encoder is read back by the receiver,
    whatever the byte order of the host that wrote it. *)
Lemma get_int_field32 (x : Z) (rest : list Z) :
  get_int 4 (mem_int 4 (htobe32 (u32 x)) ++ rest) = Some (u32 x, rest).
Proof. rewrite mem_int_htobe32. apply get_int_be_bytes, u32_range. Qed.

Lemma get_int_field64 (x : Z) (rest : list Z) :
  get_int 8 (mem_int 8 (htobe64 (u64 x)) ++ rest) = Some (u64 x, rest).
Proof. rewrite mem_int_htobe64. apply get_int_be_bytes, u64_range. Qed.

Lemma get_int_field64_of_u32 (x : Z) (rest : list Z) :
  get_int 8 (mem_int 8 (htobe64 (u32 x)) ++ rest) = Some (u32 x, rest).
Proof. rewrite mem_int_htobe64. apply get_int_be_bytes, u32_in_u64. Qed.

(** What the receiver makes of an encoded bus-access packet and the
    data that follows it. *)
Lemma receive_encoded_busaccess (cmd id dev hlen flags clk a attr size w sw : Z)
    (data : list Z) :
  receive_busaccess
    (busaccess_bytes
       (rp_encode_busaccess_common (rp_encode_hdr cmd id dev hlen flags)
          clk a attr size w sw) ++ data)
  = Some {| pkt := {| ba_hdr := {| hdr_cmd := u32 cmd; hdr_len := u32 hlen;
                                   hdr_id := u32 id; hdr_flags := u32 flags;
                                   hdr_dev := u32 dev |};
                      timestamp := u64 clk; attributes := u32 attr;
                      addr := u64 a; len := u32 size; width := u32 w;
                      stream_width := u32 sw |};
            trailing := data |}.
Proof.
  unfold busaccess_bytes, hdr_bytes, rp_encode_busaccess_common, rp_encode_hdr.
  cbn [ba_hdr hdr_cmd hdr_len hdr_id hdr_flags hdr_dev timestamp attributes
       addr len width stream_width].
  rewrite <- !app_assoc. unfold receive_busaccess.
  rewrite !get_int_field32, get_int_field64, get_int_field64_of_u32,
    get_int_field64, !get_int_field32.
  reflexivity.
Qed.

(** What the receiver makes of an encoded interrupt packet. *)
Lemma receive_encoded_interrupt (id dev clk l vec v : Z) :
  receive_interrupt (interrupt_bytes (fst (rp_encode_interrupt id dev clk l vec v)))
  = Some {| irq_hdr := {| hdr_cmd := RP_CMD_interrupt;
                          hdr_len := sizeof_rp_pkt_interrupt - sizeof_rp_pkt_hdr;
                          hdr_id := u32 id; hdr_flags := 0;
                          hdr_dev := u32 dev |};
            irq_timestamp := u64 clk; vector := u64 vec; line := u32 l;
            val := u8 v |}.
Proof.
  unfold interrupt_bytes, hdr_bytes, rp_encode_interrupt, rp_encode_hdr.
  cbn [fst irq_hdr hdr_cmd hdr_len hdr_id hdr_flags hdr_dev irq_timestamp
       vector line val].
  rewrite <- !app_assoc. unfold receive_interrupt.
  rewrite !get_int_field32, !get_int_field64, get_int_field32.
  unfold get_int. cbn [length Nat.ltb Nat.leb firstn skipn of_be rev app of_le].
  do 2 f_equal. unfold u8. pose proof (Z.mod_pos_bound v (2 ^ 8)). lia.
Qed.

(* ------------------------------------------------------------------ *)
(** * The memory master: more on the value of a read                    *)
(* ------------------------------------------------------------------ *)

Lemma of_le_bound (bs : list Z) :
  Forall is_byte bs -> 0 <= of_le bs < 256 ^ Z.of_nat (length bs).
Proof.
  induction 1 as [|b bs Hb _ IH]; [cbn; lia|].
  unfold is_byte in Hb. cbn [of_le length].
  rewrite Nat2Z.inj_succ, Z.pow_succ_r by lia. lia.
Qed.

(** The value of a read of up to four bytes.  It is the little-endian
    value of the data taken as a 32-bit [int] and converted to
    [uint64_t]: the little-endian value itself while that is below 2^31,
    which it always is for one to three bytes, and that value with the
    32 high bits set from 2^31 on. *)
Theorem rp_io_read_value_up_to_four (m : Machine) (map : RemotePortMap)
    (addr size : Z) (rsp : RemotePortDynPkt) (rest : list RemotePortDynPkt) :
  id_in_range m -> rsp_mutex m = false -> rsp_inbox m = rsp :: rest ->
  hdr_id (ba_hdr (pkt rsp)) = next_id m ->
  0 <= size <= 4 -> Forall is_byte (trailing rsp) ->
  size <= Z.of_nat (length (trailing rsp)) ->
  let le := of_le (firstn (Z.to_nat size) (trailing rsp)) in
  0 <= le < 2 ^ (8 * size)
  /\ (le < 2 ^ 31 -> fst (rp_io_read map addr size m) = Returned le)
  /\ (size <= 3 -> fst (rp_io_read map addr size m) = Returned le)
  /\ (2 ^ 31 <= le ->
      fst (rp_io_read map addr size m) = Returned (le + (2 ^ 64 - 2 ^ 32))).
Proof.
  intros Hid Hmx Hin Heq Hsz Hb Hlen le.
  assert (fst (rp_io_read map addr size m) = Returned (u64 (s32 le))) as Hv
    by now apply (rp_io_read_value m map addr size rsp rest).
  assert (0 <= le < 2 ^ (8 * size)) as Hle.
  { assert (Forall is_byte (firstn (Z.to_nat size) (trailing rsp))) as Hf
      by now apply Forall_take.
    apply of_le_bound in Hf. rewrite length_take in Hf.
    replace (Z.of_nat (Z.to_nat size `min` length (trailing rsp)))
      with size in Hf by lia.
    replace (8 * size) with (8 * size) by lia.
    rewrite Z.pow_mul_r by lia. exact Hf. }
  assert (2 ^ (8 * size) <= 2 ^ 32) as Hpow
    by (apply Z.pow_le_mono_r; lia).
  split; [exact Hle|]. rewrite Hv.
  split; [|split].
  - intros Hlt. f_equal. unfold u64, s32. Z.div_mod_to_equations. lia.
  - intros H3. f_equal.
    assert (2 ^ (8 * size) <= 2 ^ 24) by (apply Z.pow_le_mono_r; lia).
    unfold u64, s32. Z.div_mod_to_equations. lia.
  - intros Hge. f_equal. unfold u64, s32. Z.div_mod_to_equations. lia.
Qed.

(** rp_io_read makes no assertion on the size.  A read of five bytes or
    more sends its request and takes the response, and then shifts an
    [int] by 32 or more: the access has no defined outcome, and the
    mutex is still held. *)
Theorem rp_io_read_five_bytes_or_more (m : Machine) (map : RemotePortMap)
    (addr size : Z) (rsp : RemotePortDynPkt) (rest : list RemotePortDynPkt) :
  id_in_range m -> rsp_mutex m = false -> rsp_inbox m = rsp :: rest ->
  hdr_id (ba_hdr (pkt rsp)) = next_id m ->
  5 <= size ->
  rp_io_read map addr size m
  = (Undefined,
     after_request m RP_CMD_read
       (busaccess_bytes (read_request map addr size m)) rest).
Proof.
  intros Hid Hmx Hin Heq Hsz.
  rewrite (rp_io_read_run m map addr size rsp rest) by assumption.
  cbv zeta. apply Z.eqb_eq in Heq. rewrite Heq.
  now rewrite read_loop_five_or_more by lia.
Qed.

(* ------------------------------------------------------------------ *)
(** * Master and slave, one against the other                           *)
(* ------------------------------------------------------------------ *)

Lemma u32_small (x : Z) : 0 <= x < 2 ^ 32 -> u32 x = x.
Proof. intros H. unfold u32. now apply Z.mod_small. Qed.

Lemma u32_u32 (x : Z) : u32 (u32 x) = u32 x.
Proof. unfold u32. apply Z.mod_mod. lia. Qed.

Lemma u64_u64 (x : Z) : u64 (u64 x) = u64 x.
Proof. unfold u64. apply Z.mod_mod. lia. Qed.

Lemma s64_u64_s64 (x : Z) : s64 (u64 (s64 x)) = s64 x.
Proof. unfold s64, u64. Z.div_mod_to_equations. lia. Qed.

Lemma u64_s64_u64 (x : Z) : u64 (s64 (u64 x)) = u64 x.
Proof. unfold s64, u64. Z.div_mod_to_equations. lia. Qed.

Lemma request_clk_s64 (m : Machine) :
  s64 (u64 (request_clk m)) = request_clk m.
Proof. unfold request_clk. apply s64_u64_s64. Qed.

(** The request of a read, as the peer receives it. *)
Lemma read_request_received (m : Machine) (map : RemotePortMap) (addr size : Z) :
  receive_busaccess (busaccess_bytes (read_request map addr size m))
  = Some {| pkt := {| ba_hdr := {| hdr_cmd := RP_CMD_read;
                                   hdr_len := sizeof_rp_pkt_busaccess
                                              - sizeof_rp_pkt_hdr;
                                   hdr_id := u32 (next_id m); hdr_flags := 0;
                                   hdr_dev := u32 (master_rp_dev (parent map)) |};
                      timestamp := u64 (request_clk m); attributes := 0;
                      addr := u64 (addr + offset map); len := u32 size;
                      width := 0; stream_width := u32 size |};
            trailing := [] |}.
Proof.
  rewrite <- (app_nil_r (busaccess_bytes _)).
  unfold read_request, rp_encode_read. cbn [fst].
  rewrite receive_encoded_busaccess. now rewrite u64_u64.
Qed.

(** The request of a write with its data, as the peer receives it. *)
Lemma write_request_received (m : Machine) (map : RemotePortMap)
    (addr size : Z) (data : list Z) :
  receive_busaccess (busaccess_bytes (write_request map addr size m) ++ data)
  = Some {| pkt := {| ba_hdr := {| hdr_cmd := RP_CMD_write;
                                   hdr_len := u32 (sizeof_rp_pkt_busaccess
                                                   - sizeof_rp_pkt_hdr
                                                   + u32 size);
                                   hdr_id := u32 (next_id m); hdr_flags := 0;
                                   hdr_dev := u32 (master_rp_dev (parent map)) |};
                      timestamp := u64 (request_clk m); attributes := 0;
                      addr := u64 (addr + offset map); len := u32 size;
                      width := 0; stream_width := u32 size |};
            trailing := data |}.
Proof.
  unfold write_request, rp_encode_write. cbn [fst].
  rewrite receive_encoded_busaccess. now rewrite u64_u64.
Qed.

(** Every request of the memory master is one the memory slave serves.
    Whatever the address, the size and what the peer answers, the bytes
    rp_io_read and rp_io_write send are received as an incremental
    access that is not a response: its width is zero, its stream width
    is its length, and its flags are clear; rp_cmd_rw fails none of its
    assertions on it and returns.  The request carries the id the
    channel handed out, the device of the master, the clock sample, the
    address plus the offset of the map (modulo 2^64) and the size; a
    write of at most eight bytes carries its data, least significant
    byte first. *)
Theorem master_requests_pass_the_slave_assertions (m ms : Machine)
    (map : RemotePortMap) (a value size : Z) :
  id_in_range m -> rsp_mutex m = false ->
  (exists rd,
     receive_busaccess (sent_by (rp_io_read map a size) m) = Some rd
     /\ first_failed_guard rd = None
     /\ fst (rp_cmd_rw rd DMA_DIRECTION_TO_DEVICE ms) = Returned tt
     /\ hdr_cmd (ba_hdr (pkt rd)) = RP_CMD_read
     /\ hdr_id (ba_hdr (pkt rd)) = next_id m
     /\ hdr_flags (ba_hdr (pkt rd)) = 0
     /\ hdr_dev (ba_hdr (pkt rd)) = u32 (master_rp_dev (parent map))
     /\ timestamp (pkt rd) = u64 (request_clk m)
     /\ addr (pkt rd) = u64 (a + offset map)
     /\ len (pkt rd) = u32 size
     /\ width (pkt rd) = 0
     /\ stream_width (pkt rd) = u32 size
     /\ trailing rd = [])
  /\ (0 <= size <= 8 ->
      exists wr,
        receive_busaccess (sent_by (rp_io_write map a value size) m) = Some wr
        /\ first_failed_guard wr = None
        /\ fst (rp_cmd_rw wr DMA_DIRECTION_FROM_DEVICE ms) = Returned tt
        /\ hdr_cmd (ba_hdr (pkt wr)) = RP_CMD_write
        /\ hdr_id (ba_hdr (pkt wr)) = next_id m
        /\ hdr_flags (ba_hdr (pkt wr)) = 0
        /\ hdr_dev (ba_hdr (pkt wr)) = u32 (master_rp_dev (parent map))
        /\ timestamp (pkt wr) = u64 (request_clk m)
        /\ addr (pkt wr) = u64 (a + offset map)
        /\ len (pkt wr) = size
        /\ width (pkt wr) = 0
        /\ stream_width (pkt wr) = size
        /\ trailing wr = le_bytes (Z.to_nat size) value).
Proof.
  intros Hid Hmx. split.
  - assert (sent_by (rp_io_read map a size) m
            = busaccess_bytes (read_request map a size m)) as ->.
    { unfold sent_by. rewrite rp_io_read_chr_out by assumption.
      apply drop_app_length. }
    rewrite read_request_received. eexists. split; [reflexivity|].
    match goal with
    | |- first_failed_guard ?r = None /\ _ =>
        assert (first_failed_guard r = None) as Hg
    end.
    { unfold first_failed_guard.
      cbn [pkt ba_hdr hdr_flags len width stream_width].
      now rewrite !Z.eqb_refl. }
    split; [exact Hg|].
    split.
    { change (rp_cmd_rw ?p DMA_DIRECTION_TO_DEVICE)
        with (rp_memory_master_read p).
      rewrite rp_memory_master_read_run; [reflexivity | exact Hg |].
      cbn [pkt len]. unfold u32. apply Z.mod_pos_bound. lia. }
    cbn [pkt ba_hdr hdr_cmd hdr_id hdr_dev hdr_flags timestamp addr len width
         stream_width trailing].
    rewrite (u32_small (next_id m)) by exact Hid.
    repeat split; reflexivity.
  - intros Hsz.
    assert (sent_by (rp_io_write map a value size) m
            = busaccess_bytes (write_request map a size m)
              ++ le_bytes (Z.to_nat size) value) as ->.
    { unfold sent_by. rewrite rp_io_write_chr_out by assumption.
      apply drop_app_length. }
    rewrite write_request_received. eexists. split; [reflexivity|].
    match goal with
    | |- first_failed_guard ?r = None /\ _ =>
        assert (first_failed_guard r = None) as Hg
    end.
    { unfold first_failed_guard.
      cbn [pkt ba_hdr hdr_flags len width stream_width].
      now rewrite !Z.eqb_refl. }
    split; [exact Hg|].
    split.
    { change (rp_cmd_rw ?p DMA_DIRECTION_FROM_DEVICE)
        with (rp_memory_master_write p).
      rewrite rp_memory_master_write_run; [reflexivity | exact Hg |].
      cbn [pkt len trailing]. rewrite length_le_bytes.
      rewrite u32_small by lia. lia. }
    cbn [pkt ba_hdr hdr_cmd hdr_id hdr_dev hdr_flags timestamp addr len width
         stream_width trailing].
    rewrite (u32_small (next_id m)) by exact Hid.
    rewrite (u32_small size) by lia.
    repeat split; reflexivity.
Qed.

Lemma mem_load_bytes (mem : Z -> Z) (n : nat) :
  memory_of_bytes mem -> forall a, Forall is_byte (mem_load mem a n).
Proof.
  intros Hm. induction n as [|n IH]; intros a; cbn [mem_load]; constructor.
  - apply Hm.
  - apply IH.
Qed.

Lemma u64_small (x : Z) : 0 <= x < 2 ^ 64 -> u64 x = x.
Proof. intros H. unfold u64. now apply Z.mod_small. Qed.


(** A read through the master, served by the slave of the peer out of
    its memory.  The slave receives the request the master sent and
    serves it without touching its memory; the master receives the
    response the slave sent and accepts it.  For up to four bytes the
    read returns the bytes of the peer's memory at the address plus the
    offset of the map, as a little-endian value (sign-extended from 32
    bits).  The response carries the timestamp of the request, so the
    peer clock is reconciled with the master's own clock sample. *)
Theorem read_served_by_slave (m ms : Machine) (map : RemotePortMap)
    (a size : Z) (req rsp : RemotePortDynPkt)
    (rest : list RemotePortDynPkt) :
  id_in_range m -> rsp_mutex m = false -> 0 <= size <= 4 ->
  memory_of_bytes (address_space_memory ms) ->
  receive_busaccess (busaccess_bytes (read_request map a size m))
  = Some req ->
  receive_busaccess (sent_by (rp_memory_master_read req) ms) = Some rsp ->
  rsp_inbox m = rsp :: rest ->
  let fetched := mem_load (address_space_memory ms) (u64 (a + offset map))
                          (Z.to_nat size) in
  sent_by (rp_io_read map a size) m
  = busaccess_bytes (read_request map a size m)
  /\ fst (rp_memory_master_read req ms) = Returned tt
  /\ address_space_memory (snd (rp_memory_master_read req ms))
     = address_space_memory ms
  /\ trailing rsp = fetched
  /\ fst (rp_io_read map a size m) = Returned (u64 (s32 (of_le fetched)))
  /\ rsp_mutex (snd (rp_io_read map a size m)) = false
  /\ peer_clk (snd (rp_io_read map a size m))
     = Z.max (peer_clk m) (request_clk m).
Proof.
  intros Hid Hmx Hsz Hmem Hreq Hrsp Hin fetched.
  assert (u32 size = size) as Hu by (apply u32_small; lia).
  assert (u32 (next_id m) = next_id m) as Hi by (apply u32_small; exact Hid).
  rewrite read_request_received, Hu, Hi in Hreq.
  assert (first_failed_guard req = None) as Hg.
  { injection Hreq as <-. unfold first_failed_guard.
    cbn [pkt width stream_width len ba_hdr hdr_flags].
    now rewrite !Z.eqb_refl. }
  assert (request_in_range req) as Hrange.
  { injection Hreq as <-. unfold request_in_range.
    cbn [pkt ba_hdr hdr_id hdr_dev timestamp attributes addr len].
    pose proof (u32_range (master_rp_dev (parent map))) as H1.
    pose proof (u64_range (request_clk m)) as H2.
    pose proof (u64_range (a + offset map)) as H3.
    change (256 ^ Z.of_nat 4) with (2 ^ 32) in H1.
    change (256 ^ Z.of_nat 8) with (2 ^ 64) in H2, H3.
    unfold id_in_range in Hid. lia. }
  assert (len (pkt req) = size /\ addr (pkt req) = u64 (a + offset map)
          /\ hdr_id (ba_hdr (pkt req)) = next_id m
          /\ timestamp (pkt req) = u64 (request_clk m)) as (Hl & Ha & Hrid & Hts)
    by (injection Hreq as <-; repeat split).
  pose proof (rp_memory_master_read_run req ms Hg) as Hrun.
  rewrite Hl in Hrun. specialize (Hrun ltac:(lia)). cbv zeta in Hrun.
  assert (receive_busaccess (sent_by (rp_memory_master_read req) ms)
          = Some rsp
          -> trailing rsp = fetched
             /\ hdr_id (ba_hdr (pkt rsp)) = next_id m
             /\ timestamp (pkt rsp) = u64 (request_clk m)) as Hfields.
  { erewrite sent_by_app; [| exact Hrun | reflexivity].
    unfold slave_response, rp_encode_read_resp. cbn [is_from_device fst].
    rewrite receive_encoded_busaccess. intros [= <-].
    cbn [trailing pkt ba_hdr hdr_id timestamp].
    rewrite Ha, Hrid, Hts, Hi, Z.add_0_r, u64_u64, u64_s64_u64.
    repeat split. }
  destruct (Hfields Hrsp) as (Htr & Hrspid & Hrspts).
  pose proof (rp_io_read_run m map a size rsp rest Hid Hmx Hin) as Hrd.
  cbv zeta in Hrd. rewrite Hrspid, Z.eqb_refl in Hrd.
  assert (read_loop (trailing rsp) 0 (Z.to_nat size) 0
          = Some (u64 (s32 (of_le fetched)))) as Hloop.
  { rewrite Htr. rewrite read_loop_up_to_four.
    - unfold fetched. rewrite firstn_all2 by (rewrite length_mem_load; lia).
      reflexivity.
    - now apply mem_load_bytes.
    - lia.
    - unfold fetched. rewrite length_mem_load. lia. }
  rewrite Hloop in Hrd.
  split. { eapply sent_by_app; [exact Hrd | reflexivity]. }
  split; [now rewrite Hrun|].
  split; [now rewrite Hrun|].
  split; [exact Htr|].
  rewrite Hrd. cbn [fst snd after_response rsp_mutex peer_clk].
  split; [reflexivity|]. split; [reflexivity|].
  unfold advance_peer_clk. now rewrite Hrspts, request_clk_s64.
Qed.

(* ------------------------------------------------------------------ *)
(** * The memory of the slave                                           *)
(* ------------------------------------------------------------------ *)

Lemma mem_load_lookup (mem : Z -> Z) (n : nat) :
  forall (a : Z) (i : nat),
  (i < n)%nat -> mem_load mem a n !! i = Some (mem (u64 (a + Z.of_nat i))).
Proof.
  induction n as [|n IH]; intros a i Hi; [lia|].
  cbn [mem_load]. destruct i as [|i].
  - cbn. now rewrite Z.add_0_r.
  - cbn [lookup list_lookup]. rewrite IH by lia.
    do 3 f_equal. lia.
Qed.

Lemma mem_store_other (bs : list Z) :
  forall (mem : Z -> Z) (a x : Z),
  (forall i, (i < length bs)%nat -> u64 (a + Z.of_nat i) <> x) ->
  mem_store mem a bs x = mem x.
Proof.
  induction bs as [|b bs IH]; intros mem a x Hx; [reflexivity|].
  cbn [mem_store]. rewrite IH.
  - specialize (Hx 0%nat ltac:(cbn; lia)). rewrite Z.add_0_r in Hx.
    destruct (Z.eqb_spec x (u64 a)); congruence.
  - intros i Hi. specialize (Hx (S i) ltac:(cbn; lia)).
    replace (a + 1 + Z.of_nat i) with (a + Z.of_nat (S i)) by lia. exact Hx.
Qed.

Lemma u64_add_distinct (a i j : Z) :
  0 <= i < j -> j < 2 ^ 64 -> u64 (a + j) <> u64 (a + i).
Proof.
  intros Hij Hj Heq. unfold u64 in Heq. apply Z.cong_iff_0 in Heq.
  replace (a + j - (a + i)) with (j - i) in Heq by lia.
  rewrite Z.mod_small in Heq by lia. lia.
Qed.

Lemma mem_store_at (bs : list Z) :
  forall (mem : Z -> Z) (a : Z) (i : nat) (b : Z),
  Z.of_nat (length bs) <= 2 ^ 64 -> bs !! i = Some b ->
  mem_store mem a bs (u64 (a + Z.of_nat i)) = b.
Proof.
  induction bs as [|b0 bs IH]; intros mem a i b Hlen Hi; [discriminate|].
  cbn [length] in Hlen. cbn [mem_store]. destruct i as [|i].
  - injection Hi as ->. rewrite mem_store_other.
    + rewrite Z.add_0_r. now rewrite Z.eqb_refl.
    + intros j Hj.
      replace (a + 1 + Z.of_nat j) with (a + (1 + Z.of_nat j)) by lia.
      apply u64_add_distinct; lia.
  - cbn [lookup list_lookup] in Hi.
    replace (a + Z.of_nat (S i)) with (a + 1 + Z.of_nat i) by lia.
    apply IH; [lia | exact Hi].
Qed.

(** Bytes stored are the bytes loaded from the same address. *)
Lemma mem_load_mem_store (mem : Z -> Z) (a : Z) (bs : list Z) :
  Z.of_nat (length bs) <= 2 ^ 64 ->
  mem_load (mem_store mem a bs) a (length bs) = bs.
Proof.
  intros Hlen. apply list_eq. intros i.
  destruct (bs !! i) as [b|] eqn:Hb.
  - rewrite mem_load_lookup by (apply lookup_lt_Some in Hb; exact Hb).
    f_equal. now apply mem_store_at.
  - apply lookup_ge_None. rewrite length_mem_load.
    now apply lookup_ge_None in Hb.
Qed.

Lemma slave_serves_cons (dir : DMADirection) (p : RemotePortDynPkt)
    (reqs : list (DMADirection * RemotePortDynPkt)) (m m' : Machine) :
  rp_cmd_rw p dir m = (Returned tt, m') ->
  slave_serves ((dir, p) :: reqs) m = slave_serves reqs m'.
Proof.
  intros H. cbn [slave_serves].
  now erewrite bind_returned by exact H.
Qed.

(** What a write stores is what a read of the same range fetches.  When
    the slave has served a write request, its memory holds the first
    [len] bytes that followed the request at the address of the request,
    and every byte outside that range is as it was; a read request for
    the same range is then answered with exactly those bytes.  A read
    leaves the memory as it is. *)
Theorem slave_write_then_read (pw pr : RemotePortDynPkt) (m : Machine) :
  first_failed_guard pw = None -> first_failed_guard pr = None ->
  0 <= len (pkt pw) < 2 ^ 32 ->
  len (pkt pw) <= Z.of_nat (length (trailing pw)) ->
  addr (pkt pr) = addr (pkt pw) -> len (pkt pr) = len (pkt pw) ->
  let written := firstn (Z.to_nat (len (pkt pw))) (trailing pw) in
  let m1 := snd (rp_memory_master_write pw m) in
  let m2 := snd (rp_memory_master_read pr m1) in
  fst (slave_serves [(DMA_DIRECTION_FROM_DEVICE, pw);
                     (DMA_DIRECTION_TO_DEVICE, pr)] m) = Returned tt
  /\ snd (slave_serves [(DMA_DIRECTION_FROM_DEVICE, pw);
                        (DMA_DIRECTION_TO_DEVICE, pr)] m) = m2
  /\ mem_load (address_space_memory m1) (addr (pkt pw))
              (Z.to_nat (len (pkt pw))) = written
  /\ (forall x,
        (forall i, 0 <= i < len (pkt pw) -> u64 (addr (pkt pw) + i) <> x) ->
        address_space_memory m1 x = address_space_memory m x)
  /\ sent_by (rp_memory_master_read pr) m1
     = busaccess_bytes (slave_response pr DMA_DIRECTION_TO_DEVICE) ++ written
  /\ address_space_memory m2 = address_space_memory m1.
Proof.
  intros Hgw Hgr Hlen Htr Ha Hl written m1 m2.
  assert (0 <= len (pkt pw) <= Z.of_nat (length (trailing pw))) as Hlen'
    by lia.
  pose proof (rp_memory_master_write_run pw m Hgw Hlen') as Hw.
  cbv zeta in Hw.
  assert (0 <= len (pkt pr) < 2 ^ 32) as Hlenr by (rewrite Hl; exact Hlen).
  pose proof (rp_memory_master_read_run pr m1 Hgr Hlenr) as Hr.
  cbv zeta in Hr.
  assert (length written = Z.to_nat (len (pkt pw))) as Hwl
    by (unfold written; rewrite length_take; lia).
  assert (address_space_memory m1
          = mem_store (address_space_memory m) (addr (pkt pw)) written) as Hm1
    by (unfold m1; rewrite Hw; reflexivity).
  assert (mem_load (address_space_memory m1) (addr (pkt pw))
                   (Z.to_nat (len (pkt pw))) = written) as Hload.
  { rewrite Hm1, <- Hwl. apply mem_load_mem_store. lia. }
  assert (slave_serves [(DMA_DIRECTION_FROM_DEVICE, pw);
                        (DMA_DIRECTION_TO_DEVICE, pr)] m
          = (Returned tt, m2)) as Hboth.
  { assert (rp_memory_master_write pw m = (Returned tt, m1)) as Hw1
      by (unfold m1; now rewrite Hw).
    assert (rp_memory_master_read pr m1 = (Returned tt, m2)) as Hr1
      by (unfold m2; now rewrite Hr).
    rewrite (slave_serves_cons _ _ _ m m1) by exact Hw1.
    rewrite (slave_serves_cons _ _ _ m1 m2) by exact Hr1.
    reflexivity. }
  split; [|split; [|split; [|split; [|split]]]].
  - now rewrite Hboth.
  - now rewrite Hboth.
  - exact Hload.
  - intros x Hx. rewrite Hm1. apply mem_store_other.
    intros i Hi. apply Hx. lia.
  - eapply sent_by_app; [exact Hr|].
    cbn [chr_out set_chr_out]. rewrite Ha, Hl, Hload. reflexivity.
  - unfold m2. rewrite Hr. reflexivity.
Qed.

(** A write through the master, served by the slave of the peer.  The
    slave receives the request with its data and stores the [size] low
    bytes of the value, least significant first, at the address plus the
    offset of the map, leaving the rest of its memory alone; it answers
    without data, and the master accepts the answer and returns with the
    mutex released. *)
Theorem write_served_by_slave (m ms : Machine) (map : RemotePortMap)
    (a value size : Z) (req rsp : RemotePortDynPkt)
    (rest : list RemotePortDynPkt) :
  id_in_range m -> rsp_mutex m = false -> 0 <= size <= 8 ->
  let data := le_bytes (Z.to_nat size) value in
  receive_busaccess (busaccess_bytes (write_request map a size m) ++ data)
  = Some req ->
  receive_busaccess (sent_by (rp_memory_master_write req) ms) = Some rsp ->
  rsp_inbox m = rsp :: rest ->
  let ms' := snd (rp_memory_master_write req ms) in
  sent_by (rp_io_write map a value size) m
  = busaccess_bytes (write_request map a size m) ++ data
  /\ fst (rp_memory_master_write req ms) = Returned tt
  /\ mem_load (address_space_memory ms') (u64 (a + offset map))
              (Z.to_nat size) = data
  /\ (forall x,
        (forall i, 0 <= i < size -> u64 (u64 (a + offset map) + i) <> x) ->
        address_space_memory ms' x = address_space_memory ms x)
  /\ trailing rsp = []
  /\ fst (rp_io_write map a value size m) = Returned tt
  /\ rsp_mutex (snd (rp_io_write map a value size m)) = false
  /\ peer_clk (snd (rp_io_write map a value size m))
     = Z.max (peer_clk m) (request_clk m).
Proof.
  intros Hid Hmx Hsz data Hreq Hrsp Hin ms'.
  assert (u32 size = size) as Hu by (apply u32_small; lia).
  assert (u32 (next_id m) = next_id m) as Hi by (apply u32_small; exact Hid).
  assert (length data = Z.to_nat size) as Hdl
    by (unfold data; apply length_le_bytes).
  rewrite write_request_received, Hu, Hi in Hreq.
  assert (first_failed_guard req = None) as Hg.
  { injection Hreq as <-. unfold first_failed_guard.
    cbn [pkt width stream_width len ba_hdr hdr_flags].
    now rewrite !Z.eqb_refl. }
  assert (len (pkt req) = size /\ addr (pkt req) = u64 (a + offset map)
          /\ hdr_id (ba_hdr (pkt req)) = next_id m
          /\ timestamp (pkt req) = u64 (request_clk m)
          /\ trailing req = data) as (Hl & Ha & Hrid & Hts & Htd)
    by (injection Hreq as <-; repeat split).
  pose proof (rp_memory_master_write_run req ms Hg) as Hrun.
  rewrite Hl, Htd, Hdl in Hrun. specialize (Hrun ltac:(lia)).
  cbv zeta in Hrun. rewrite Ha in Hrun.
  rewrite <- Hdl, firstn_all in Hrun.
  assert (receive_busaccess (sent_by (rp_memory_master_write req) ms)
          = Some rsp
          -> trailing rsp = []
             /\ hdr_id (ba_hdr (pkt rsp)) = next_id m
             /\ timestamp (pkt rsp) = u64 (request_clk m)) as Hfields.
  { erewrite sent_by_app; [| exact Hrun | reflexivity].
    rewrite <- (app_nil_r (busaccess_bytes _)).
    unfold slave_response, rp_encode_write_resp. cbn [is_from_device fst].
    rewrite receive_encoded_busaccess. intros [= <-].
    cbn [trailing pkt ba_hdr hdr_id timestamp].
    rewrite Hrid, Hts, Hi, Z.add_0_r, u64_u64, u64_s64_u64.
    repeat split. }
  destruct (Hfields Hrsp) as (Htr & Hrspid & Hrspts).
  pose proof (rp_io_write_run m map a value size rsp rest Hsz Hid Hmx Hin)
    as Hwr.
  cbv zeta in Hwr. rewrite Hrspid, Z.eqb_refl in Hwr.
  assert (address_space_memory ms'
          = mem_store (address_space_memory ms) (u64 (a + offset map)) data)
    as Hmem by (unfold ms'; rewrite Hrun; reflexivity).
  split. { eapply sent_by_app; [exact Hwr | reflexivity]. }
  split; [now rewrite Hrun|].
  split.
  { rewrite Hmem, <- Hdl. apply mem_load_mem_store. lia. }
  split.
  { intros x Hx. rewrite Hmem. apply mem_store_other.
    intros i Hi'. apply Hx. lia. }
  split; [exact Htr|].
  rewrite Hwr. cbn [fst snd after_response rsp_mutex peer_clk].
  split; [reflexivity|]. split; [reflexivity|].
  unfold advance_peer_clk. now rewrite Hrspts, request_clk_s64.
Qed.

(* ------------------------------------------------------------------ *)
(** * The memory master: realize                                        *)
(* ------------------------------------------------------------------ *)

Lemma realize_loop_spec (s : RemotePortMemoryMaster)
    (cfg : RemotePortMemoryMasterCfg) (todo : nat) :
  forall i : nat,
  (i + todo <= length (mapoffset cfg))%nat ->
  (i + todo <= length (mapsize cfg))%nat ->
  exists mmaps,
    realize_loop s cfg (Z.of_nat i) todo = Some mmaps
    /\ length mmaps = todo
    /\ forall k off sz,
         mapoffset cfg !! (i + k)%nat = Some off ->
         mapsize cfg !! (i + k)%nat = Some sz ->
         (k < todo)%nat ->
         mmaps !! k = Some ({| parent := s; offset := off |}, sz).
Proof.
  induction todo as [|todo IH]; intros i Ho Hs.
  - exists []. repeat split. intros; lia.
  - cbn [realize_loop]. rewrite Nat2Z.id.
    destruct (lookup_lt_is_Some_2 (mapoffset cfg) i ltac:(lia)) as [off0 Hoff].
    destruct (lookup_lt_is_Some_2 (mapsize cfg) i ltac:(lia)) as [sz0 Hsz].
    rewrite Hoff, Hsz.
    destruct (IH (S i) ltac:(lia) ltac:(lia)) as (mmaps & Hrun & Hlen & Hk).
    replace (Z.of_nat i + 1) with (Z.of_nat (S i)) by lia.
    rewrite Hrun. eexists. split; [reflexivity|].
    split; [cbn; now rewrite Hlen|].
    intros k off sz Hko Hks Hlt. destruct k as [|k].
    + rewrite Nat.add_0_r in Hko, Hks. cbn. congruence.
    + cbn [lookup list_lookup]. apply Hk; [| | lia].
      * now replace (S i + k)%nat with (i + S k)%nat by lia.
      * now replace (S i + k)%nat with (i + S k)%nat by lia.
Qed.

(** rp_memory_master_realize.  With as many offsets as sizes it makes
    one map per size: map [k] has the [k]-th offset, the device as its
    parent and a region of the [k]-th size, so that a read or a write
    through map [k] at an address is requested from the peer at that
    address plus the [k]-th offset (modulo 2^64), on the channel of the
    device.  With a different number of offsets it stops at the
    assertion. *)
Theorem rp_memory_master_realize_maps (s : RemotePortMemoryMaster)
    (cfg : RemotePortMemoryMasterCfg) :
  cfg_arrays cfg ->
  (num_maps cfg <> num_offsets cfg ->
     rp_memory_master_realize s cfg = RealizeAssertionFailed)
  /\ (num_maps cfg = num_offsets cfg ->
      exists mmaps,
        rp_memory_master_realize s cfg = Realized mmaps
        /\ Z.of_nat (length mmaps) = num_maps cfg
        /\ forall k off sz,
             mapoffset cfg !! k = Some off -> mapsize cfg !! k = Some sz ->
             exists map,
               mmaps !! k = Some (map, sz)
               /\ map = {| parent := s; offset := off |}
               /\ forall a value size m,
                    id_in_range m -> rsp_mutex m = false ->
                    (exists req,
                       receive_busaccess (sent_by (rp_io_read map a size) m)
                       = Some req
                       /\ hdr_cmd (ba_hdr (pkt req)) = RP_CMD_read
                       /\ addr (pkt req) = u64 (a + off)
                       /\ hdr_dev (ba_hdr (pkt req)) = u32 (master_rp_dev s)
                       /\ len (pkt req) = u32 size)
                    /\ (0 <= size <= 8 ->
                        exists req,
                          receive_busaccess
                            (sent_by (rp_io_write map a value size) m)
                          = Some req
                          /\ hdr_cmd (ba_hdr (pkt req)) = RP_CMD_write
                          /\ addr (pkt req) = u64 (a + off)
                          /\ hdr_dev (ba_hdr (pkt req))
                             = u32 (master_rp_dev s)
                          /\ len (pkt req) = size
                          /\ trailing req = le_bytes (Z.to_nat size) value)).
Proof.
  intros [Hsz Hoff]. unfold rp_memory_master_realize. split.
  - intros Hne. apply Z.eqb_neq in Hne. now rewrite Hne.
  - intros Heq. rewrite Heq, Z.eqb_refl.
    destruct (realize_loop_spec s cfg (Z.to_nat (num_offsets cfg)) 0%nat
                ltac:(lia) ltac:(lia)) as (mmaps & Hrun & Hlen & Hk).
    change (Z.of_nat 0) with 0 in Hrun. rewrite Hrun.
    exists mmaps. split; [reflexivity|]. split; [lia|].
    intros k off sz Hko Hks. eexists. split; [|split; [reflexivity|]].
    + apply Hk; [exact Hko | exact Hks |].
      apply lookup_lt_Some in Hko. lia.
    + intros a value size m Hid Hmx. split.
      * assert (sent_by (rp_io_read {| parent := s; offset := off |} a size) m
                = busaccess_bytes
                    (read_request {| parent := s; offset := off |} a size m))
          as ->.
        { unfold sent_by. rewrite rp_io_read_chr_out by assumption.
          apply drop_app_length. }
        rewrite read_request_received. eexists. split; [reflexivity|].
        repeat split; reflexivity.
      * intros Hsize.
        assert (sent_by (rp_io_write {| parent := s; offset := off |}
                           a value size) m
                = busaccess_bytes
                    (write_request {| parent := s; offset := off |} a size m)
                  ++ le_bytes (Z.to_nat size) value) as ->.
        { unfold sent_by. rewrite rp_io_write_chr_out by assumption.
          apply drop_app_length. }
        rewrite write_request_received. eexists. split; [reflexivity|].
        cbn [pkt ba_hdr hdr_cmd hdr_dev addr len trailing parent offset].
        rewrite (u32_small size) by lia.
        repeat split; reflexivity.
Qed.

(* ------------------------------------------------------------------ *)
(** * The memory master: accesses one after the other                   *)
(* ------------------------------------------------------------------ *)





(* ------------------------------------------------------------------ *)
(** * The GPIO device: level changes one after the other                *)
(* ------------------------------------------------------------------ *)

Lemma u32_of_u64_add (x i : Z) : u32 (u64 x + i) = u32 (x + i).
Proof.
  unfold u32, u64.
  rewrite <- (Z.add_mod_idemp_l (x mod 2 ^ 64)) by lia.
  rewrite Z.mod_mod_divide by (exists (2 ^ 32); reflexivity).
  now rewrite Z.add_mod_idemp_l by lia.
Qed.

Lemma gpio_ids (c : Z) (n : nat) :
  u32 c :: List.map (fun i => u32 (u64 (c + 1) + Z.of_nat i)) (seq 0 n)
  = List.map (fun i => u32 (c + Z.of_nat i)) (seq 0 (S n)).
Proof.
  cbn [seq List.map]. f_equal.
  - now rewrite Z.add_0_r.
  - rewrite <- seq_shift, List.map_map. apply List.map_ext. intros i.
    rewrite u32_of_u64_add. f_equal. lia.
Qed.

Lemma ids_distinct (c : Z) (n : nat) :
  Z.of_nat n <= 2 ^ 32 ->
  NoDup (List.map (fun i => u32 (c + Z.of_nat i)) (seq 0 n)).
Proof.
  intros Hn. apply NoDup_fmap_2_strong; [|apply NoDup_seq].
  intros i j Hi Hj Heq.
  apply elem_of_seq in Hi, Hj.
  unfold u32 in Heq. apply Z.cong_iff_0 in Heq.
  replace (c + Z.of_nat i - (c + Z.of_nat j))
    with (Z.of_nat i - Z.of_nat j) in Heq by lia.
  apply Z.mod_divide in Heq; [|lia]. destruct Heq as [k Hk]. lia.
Qed.

Lemma level_changes_run (evs : list (Z * Z)) :
  forall (s : RemotePortGPIO) (m : Machine),
  0 <= current_id s < 2 ^ 64 ->
  exists s' m' tr bytes,
    level_changes s evs m = (Returned s', m')
    /\ current_id s' = u64 (current_id s + Z.of_nat (length evs))
    /\ num_gpios s' = num_gpios s /\ gpio_out s' = gpio_out s
    /\ gpio_rp_dev s' = gpio_rp_dev s
    /\ calls m' = calls m ++ tr /\ chr_out m' = chr_out m ++ bytes
    /\ Z.of_nat (length bytes)
       = sizeof_rp_pkt_interrupt * Z.of_nat (length evs)
    /\ encoded_ids tr
       = List.map (fun i => u32 (current_id s + Z.of_nat i))
                  (seq 0 (length evs))
    /\ Forall (fun c => is_lock_or_wait c = false) tr
    /\ rsp_mutex m' = rsp_mutex m /\ rsp_inbox m' = rsp_inbox m
    /\ next_id m' = next_id m.
Proof.
  induction evs as [|[irq level] evs IH]; intros s m Hc.
  - exists s, m, [], []. cbn [level_changes length Z.of_nat seq List.map].
    rewrite Z.add_0_r, !app_nil_r.
    split; [reflexivity|].
    split; [symmetry; now apply u64_small|].
    repeat split; try reflexivity. constructor.
  - pose proof (rp_gpio_handler_run m s irq level) as Hrun. cbv zeta in Hrun.
    set (s1 := {| num_gpios := num_gpios s; gpio_out := gpio_out s;
                  current_id := u64 (current_id s + 1);
                  gpio_rp_dev := gpio_rp_dev s |}) in *.
    match type of Hrun with _ = (_, ?x) => set (m1 := x) in * end.
    assert (0 <= current_id s1 < 2 ^ 64) as Hc1.
    { unfold s1. cbn [current_id]. unfold u64. apply Z.mod_pos_bound. lia. }
    destruct (IH s1 m1 Hc1)
      as (s' & m' & tr & bytes & Hrest & Hcur & Hnum & Hout & Hdev & Hcalls
          & Hchr & Hlen & Hids & Hfree & Hmx & Hin & Hnext).
    exists s', m'. eexists. eexists.
    split.
    { cbn [level_changes]. erewrite bind_returned by exact Hrun. exact Hrest. }
    split.
    { rewrite Hcur. unfold s1. cbn [current_id length]. unfold u64.
      rewrite Z.add_mod_idemp_l by lia. f_equal. lia. }
    split; [exact Hnum|]. split; [exact Hout|]. split; [exact Hdev|].
    split.
    { rewrite Hcalls. unfold m1. cbn [calls set_chr_out set_calls].
      rewrite <- app_assoc. reflexivity. }
    split.
    { rewrite Hchr. unfold m1. cbn [chr_out set_chr_out].
      rewrite <- app_assoc. reflexivity. }
    split.
    { rewrite length_app, length_interrupt_bytes. cbn [length].
      unfold sizeof_rp_pkt_interrupt, sizeof_rp_pkt_hdr in *. lia. }
    split.
    { unfold encoded_ids in *. rewrite omap_app, Hids.
      cbn [omap app length]. unfold s1. cbn [current_id].
      apply gpio_ids. }
    split.
    { apply Forall_app. split; [repeat constructor | exact Hfree]. }
    rewrite Hmx, Hin, Hnext. unfold m1. repeat split.
Qed.

(** Level changes one after the other.  Each sends one interrupt packet
    of 41 bytes and returns; the ids are the device's own counter from
    its current value on, modulo 2^32, so that up to 2^32 packets in a
    row have different ids.  The counter moves on by the number of
    packets.  No mutex is taken and no response awaited along the way,
    and the id generator of the channel is not used: it is as it was. *)
Theorem level_changes_send_fresh_ids (s : RemotePortGPIO) (evs : list (Z * Z))
    (m : Machine) :
  0 <= current_id s < 2 ^ 64 ->
  let r := level_changes s evs m in
  let tr := calls_of (level_changes s evs) m in
  (exists s',
     fst r = Returned s'
     /\ current_id s' = u64 (current_id s + Z.of_nat (length evs))
     /\ num_gpios s' = num_gpios s /\ gpio_out s' = gpio_out s)
  /\ Z.of_nat (length (sent_by (level_changes s evs) m))
     = sizeof_rp_pkt_interrupt * Z.of_nat (length evs)
  /\ encoded_ids tr
     = List.map (fun i => u32 (current_id s + Z.of_nat i)) (seq 0 (length evs))
  /\ (Z.of_nat (length evs) <= 2 ^ 32 -> NoDup (encoded_ids tr))
  /\ Forall (fun c => is_lock_or_wait c = false) tr
  /\ rsp_mutex (snd r) = rsp_mutex m
  /\ rsp_inbox (snd r) = rsp_inbox m
  /\ next_id (snd r) = next_id m.
Proof.
  intros Hc r tr.
  destruct (level_changes_run evs s m Hc)
    as (s' & m' & tr' & bytes & Hrun & Hcur & Hnum & Hout & _ & Hcalls
        & Hchr & Hlen & Hids & Hfree & Hmx & Hin & Hnext).
  assert (tr = tr') as -> by (unfold tr; eapply calls_of_app; eassumption).
  rewrite (sent_by_app _ _ _ _ bytes Hrun Hchr).
  unfold r. rewrite Hrun. cbn [fst snd].
  split; [exists s'; repeat split; assumption|].
  split; [exact Hlen|]. split; [exact Hids|].
  split; [intros Hn; rewrite Hids; now apply ids_distinct|].
  repeat split; assumption.
Qed.

(** A level change on one side sets the line on the other.  The packet
    rp_gpio_handler sends for line [irq] at level [level] is received by
    the peer with that line, vector 0, the low eight bits of the level,
    the device and the id of the sender.  Dispatched to a GPIO device it
    sets output line [irq] to those eight bits when the device has that
    line, and is not defined when it has not. *)
Theorem level_change_reaches_the_peer (s rpg : RemotePortGPIO)
    (irq level : Z) (m : Machine) :
  0 <= irq < 2 ^ 32 ->
  exists p,
    receive_interrupt (sent_by (rp_gpio_handler s irq level) m) = Some p
    /\ hdr_cmd (irq_hdr p) = RP_CMD_interrupt
    /\ hdr_id (irq_hdr p) = u32 (current_id s)
    /\ hdr_dev (irq_hdr p) = u32 (gpio_rp_dev s)
    /\ irq_timestamp p = u64 (request_clk m)
    /\ line p = irq /\ vector p = 0 /\ val p = u8 level
    /\ (irq < Z.of_nat (length (gpio_out rpg)) ->
        exists rpg',
          rp_gpio_interrupt rpg p = Some rpg'
          /\ gpio_out rpg' = <[Z.to_nat irq := u8 level]> (gpio_out rpg))
    /\ (Z.of_nat (length (gpio_out rpg)) <= irq ->
        rp_gpio_interrupt rpg p = None).
Proof.
  intros Hirq.
  pose proof (rp_gpio_handler_run m s irq level) as Hrun. cbv zeta in Hrun.
  erewrite sent_by_app; [| exact Hrun | reflexivity].
  unfold gpio_packet. rewrite receive_encoded_interrupt.
  eexists. split; [reflexivity|].
  cbn [irq_hdr hdr_cmd hdr_id hdr_dev irq_timestamp line vector val].
  rewrite u32_u32, (u32_small irq) by exact Hirq.
  repeat split.
  - intros Hlt. unfold rp_gpio_interrupt. cbn [line val].
    replace (0 <=? irq) with true by (symmetry; apply Z.leb_le; lia).
    replace (irq <? Z.of_nat (length (gpio_out rpg))) with true
      by (symmetry; apply Z.ltb_lt; lia).
    cbn [andb]. eexists. split; reflexivity.
  - intros Hge. unfold rp_gpio_interrupt. cbn [line].
    replace (irq <? Z.of_nat (length (gpio_out rpg))) with false
      by (symmetry; apply Z.ltb_ge; lia).
    now rewrite andb_false_r.
Qed.

(* ------------------------------------------------------------------ *)
(** * The GPIO device: interrupts one after the other                   *)
(* ------------------------------------------------------------------ *)

Lemma rp_gpio_interrupt_some (rpg rpg' : RemotePortGPIO) (p : rp_pkt_interrupt) :
  rp_gpio_interrupt rpg p = Some rpg' ->
  line_in_range rpg p
  /\ gpio_out rpg' = <[Z.to_nat (line p) := val p]> (gpio_out rpg)
  /\ num_gpios rpg' = num_gpios rpg /\ current_id rpg' = current_id rpg
  /\ gpio_rp_dev rpg' = gpio_rp_dev rpg.
Proof.
  unfold rp_gpio_interrupt, line_in_range.
  destruct (Z.leb_spec 0 (line p)); [|discriminate].
  destruct (Z.ltb_spec (line p) (Z.of_nat (length (gpio_out rpg))));
    [|discriminate].
  cbn [andb]. intros [= <-]. repeat split; lia.
Qed.

Lemma rp_gpio_interrupt_none (rpg : RemotePortGPIO) (p : rp_pkt_interrupt) :
  rp_gpio_interrupt rpg p = None -> ~ line_in_range rpg p.
Proof.
  unfold rp_gpio_interrupt, line_in_range.
  destruct (Z.leb_spec 0 (line p));
    destruct (Z.ltb_spec (line p) (Z.of_nat (length (gpio_out rpg))));
    cbn [andb]; intros Hrun; try discriminate; lia.
Qed.

Lemma dispatch_interrupts_spec (ps : list rp_pkt_interrupt) :
  forall rpg,
  (Forall (line_in_range rpg) ps ->
   exists rpg',
     dispatch_interrupts rpg ps = Some rpg'
     /\ length (gpio_out rpg') = length (gpio_out rpg)
     /\ num_gpios rpg' = num_gpios rpg /\ current_id rpg' = current_id rpg
     /\ gpio_rp_dev rpg' = gpio_rp_dev rpg
     /\ forall j d, gpio_out rpg !! j = Some d ->
                    gpio_out rpg' !! j = Some (last_level j ps d))
  /\ (is_Some (dispatch_interrupts rpg ps) -> Forall (line_in_range rpg) ps).
Proof.
  induction ps as [|p ps IH]; intros rpg.
  - split.
    + intros _. exists rpg. repeat split. intros j d Hd. exact Hd.
    + constructor.
  - cbn [dispatch_interrupts]. split.
    + intros Hall. inversion Hall as [|? ? Hp Hps]; subst.
      destruct (rp_gpio_interrupt rpg p) as [rpg1|] eqn:E.
      2:{ apply rp_gpio_interrupt_none in E. contradiction. }
      apply rp_gpio_interrupt_some in E as (_ & Hout & Hn & Hc & Hd).
      assert (length (gpio_out rpg1) = length (gpio_out rpg)) as Hlen
        by (rewrite Hout; apply length_insert).
      assert (Forall (line_in_range rpg1) ps) as Hps1.
      { eapply Forall_impl; [exact Hps|]. unfold line_in_range.
        intros q Hq. now rewrite Hlen. }
      destruct (proj1 (IH rpg1) Hps1) as (rpg' & Hrun & Hl & Hn' & Hc' & Hd' & Hlev).
      exists rpg'. split; [exact Hrun|].
      split; [congruence|]. split; [congruence|]. split; [congruence|].
      split; [congruence|].
      intros j d Hj. cbn [last_level]. apply Hlev. rewrite Hout.
      destruct (Nat.eqb_spec (Z.to_nat (line p)) j) as [->|Hne].
      * apply list_lookup_insert_eq. now apply lookup_lt_Some in Hj.
      * rewrite list_lookup_insert_ne by exact Hne. exact Hj.
    + intros [rpg' Hrun].
      destruct (rp_gpio_interrupt rpg p) as [rpg1|] eqn:E; [|discriminate].
      apply rp_gpio_interrupt_some in E as (Hp & Hout & _).
      constructor; [exact Hp|].
      assert (length (gpio_out rpg1) = length (gpio_out rpg)) as Hlen
        by (rewrite Hout; apply length_insert).
      eapply Forall_impl; [apply (proj2 (IH rpg1)); now exists rpg'|].
      unfold line_in_range. intros q Hq. now rewrite <- Hlen.
Qed.

(** Interrupt packets dispatched one after the other.  The sequence is
    defined exactly when the line of every packet is within the array of
    output lines.  The array keeps its length, so the bound that holds
    for the first packet holds for all; each line ends at the value of
    the last packet that names it, or where it was; no other field of
    the device changes. *)
Theorem dispatch_interrupts_in_range (rpg : RemotePortGPIO)
    (ps : list rp_pkt_interrupt) :
  (is_Some (dispatch_interrupts rpg ps) <-> Forall (line_in_range rpg) ps)
  /\ forall rpg',
       dispatch_interrupts rpg ps = Some rpg' ->
       length (gpio_out rpg') = length (gpio_out rpg)
       /\ num_gpios rpg' = num_gpios rpg /\ current_id rpg' = current_id rpg
       /\ gpio_rp_dev rpg' = gpio_rp_dev rpg
       /\ forall j d, gpio_out rpg !! j = Some d ->
                      gpio_out rpg' !! j = Some (last_level j ps d).
Proof.
  destruct (dispatch_interrupts_spec ps rpg) as [Hdef Hall].
  split.
  - split; [exact Hall|]. intros H. destruct (Hdef H) as (rpg' & Hrun & _).
    now exists rpg'.
  - intros rpg' Hrun.
    destruct (Hdef (Hall (ex_intro _ rpg' Hrun))) as (rpg2 & Hrun2 & Hrest).
    rewrite Hrun in Hrun2. injection Hrun2 as <-. exact Hrest.
Qed.

(* ------------------------------------------------------------------ *)
(** * The packets on the wire                                           *)
(* ------------------------------------------------------------------ *)

(** The layout of the requests of the master and of the packet of the
    GPIO device: every field in network byte order, in the order of the
    packed structures, on a host of either byte order. *)
Lemma packets_in_network_order (m : Machine) (map : RemotePortMap)
    (a size : Z) (s : RemotePortGPIO) (irq level : Z) :
  busaccess_bytes (read_request map a size m)
  = be_bytes 4 RP_CMD_read
    ++ be_bytes 4 (sizeof_rp_pkt_busaccess - sizeof_rp_pkt_hdr)
    ++ be_bytes 4 (u32 (next_id m)) ++ be_bytes 4 0
    ++ be_bytes 4 (u32 (master_rp_dev (parent map)))
    ++ be_bytes 8 (u64 (request_clk m)) ++ be_bytes 8 0
    ++ be_bytes 8 (u64 (a + offset map))
    ++ be_bytes 4 (u32 size) ++ be_bytes 4 0 ++ be_bytes 4 (u32 size)
  /\ busaccess_bytes (write_request map a size m)
     = be_bytes 4 RP_CMD_write
       ++ be_bytes 4 (u32 (sizeof_rp_pkt_busaccess - sizeof_rp_pkt_hdr
                           + u32 size))
       ++ be_bytes 4 (u32 (next_id m)) ++ be_bytes 4 0
       ++ be_bytes 4 (u32 (master_rp_dev (parent map)))
       ++ be_bytes 8 (u64 (request_clk m)) ++ be_bytes 8 0
       ++ be_bytes 8 (u64 (a + offset map))
       ++ be_bytes 4 (u32 size) ++ be_bytes 4 0 ++ be_bytes 4 (u32 size)
  /\ interrupt_bytes (gpio_packet s irq level m)
     = be_bytes 4 RP_CMD_interrupt
       ++ be_bytes 4 (sizeof_rp_pkt_interrupt - sizeof_rp_pkt_hdr)
       ++ be_bytes 4 (u32 (current_id s)) ++ be_bytes 4 0
       ++ be_bytes 4 (u32 (gpio_rp_dev s))
       ++ be_bytes 8 (u64 (request_clk m)) ++ be_bytes 8 0
       ++ be_bytes 4 (u32 irq) ++ [u8 level].
Proof.
  unfold read_request, write_request, gpio_packet, rp_encode_read,
    rp_encode_write, rp_encode_interrupt, rp_encode_busaccess_common,
    rp_encode_hdr, busaccess_bytes, interrupt_bytes, hdr_bytes.
  cbn [fst ba_hdr irq_hdr hdr_cmd hdr_len hdr_id hdr_flags hdr_dev timestamp
       irq_timestamp attributes vector addr len line val width stream_width].
  rewrite !mem_int_htobe32, !mem_int_htobe64, <- !app_assoc.
  rewrite u32_u32, u64_u64.
  repeat split.
Qed.

(** The header length counts the bytes after the header.  In every
    packet the three devices send, the length field of the header, as
    the peer receives it, is the number of bytes that follow the header:
    the rest of the packet and, for a write request and a read response,
    the data.  This holds of every read request, of every write request
    of at most eight bytes, of the response to every read request the
    slave serves whose length leaves room for the packet in 32 bits, of
    the response to every write request it serves, and of every
    interrupt packet. *)
Theorem header_length_counts_the_payload :
  let counts (sent : list Z) (hlen : Z) :=
    sizeof_rp_pkt_hdr + hlen = Z.of_nat (length sent) in
  (forall (m : Machine) (map : RemotePortMap) (a size : Z),
     id_in_range m -> rsp_mutex m = false ->
     exists r,
       receive_busaccess (sent_by (rp_io_read map a size) m) = Some r
       /\ counts (sent_by (rp_io_read map a size) m)
                 (hdr_len (ba_hdr (pkt r))))
  /\ (forall (m : Machine) (map : RemotePortMap) (a value size : Z),
        id_in_range m -> rsp_mutex m = false -> 0 <= size <= 8 ->
        exists r,
          receive_busaccess (sent_by (rp_io_write map a value size) m) = Some r
          /\ counts (sent_by (rp_io_write map a value size) m)
                    (hdr_len (ba_hdr (pkt r))))
  /\ (forall (p : RemotePortDynPkt) (m : Machine),
        first_failed_guard p = None ->
        0 <= len (pkt p)
          < 2 ^ 32 - (sizeof_rp_pkt_busaccess - sizeof_rp_pkt_hdr) ->
        exists r,
          receive_busaccess (sent_by (rp_memory_master_read p) m) = Some r
          /\ counts (sent_by (rp_memory_master_read p) m)
                    (hdr_len (ba_hdr (pkt r)))
          /\ hdr_len (ba_hdr (pkt r))
             = sizeof_rp_pkt_busaccess - sizeof_rp_pkt_hdr + len (pkt p))
  /\ (forall (p : RemotePortDynPkt) (m : Machine),
        first_failed_guard p = None ->
        0 <= len (pkt p) <= Z.of_nat (length (trailing p)) ->
        exists r,
          receive_busaccess (sent_by (rp_memory_master_write p) m) = Some r
          /\ counts (sent_by (rp_memory_master_write p) m)
                    (hdr_len (ba_hdr (pkt r))))
  /\ (forall (s : RemotePortGPIO) (irq level : Z) (m : Machine),
        exists r,
          receive_interrupt (sent_by (rp_gpio_handler s irq level) m) = Some r
          /\ counts (sent_by (rp_gpio_handler s irq level) m)
                    (hdr_len (irq_hdr r))).
Proof.
  intros counts. unfold counts.
  split; [|split; [|split; [|split]]].
  - intros m map a size Hid Hmx.
    assert (sent_by (rp_io_read map a size) m
            = busaccess_bytes (read_request map a size m)) as ->.
    { unfold sent_by. rewrite rp_io_read_chr_out by assumption.
      apply drop_app_length. }
    rewrite read_request_received. eexists. split; [reflexivity|].
    cbn [pkt ba_hdr hdr_len]. rewrite length_busaccess_bytes.
    unfold sizeof_rp_pkt_busaccess, sizeof_rp_pkt_hdr. lia.
  - intros m map a value size Hid Hmx Hsz.
    assert (sent_by (rp_io_write map a value size) m
            = busaccess_bytes (write_request map a size m)
              ++ le_bytes (Z.to_nat size) value) as ->.
    { unfold sent_by. rewrite rp_io_write_chr_out by assumption.
      apply drop_app_length. }
    rewrite write_request_received. eexists. split; [reflexivity|].
    cbn [pkt ba_hdr hdr_len].
    rewrite length_app, length_busaccess_bytes, length_le_bytes.
    rewrite (u32_small size) by lia. rewrite u32_small.
    + unfold sizeof_rp_pkt_busaccess, sizeof_rp_pkt_hdr. lia.
    + unfold sizeof_rp_pkt_busaccess, sizeof_rp_pkt_hdr. lia.
  - intros p m Hg Hlen.
    assert (0 <= len (pkt p) < 2 ^ 32) as Hlen32
      by (unfold sizeof_rp_pkt_busaccess, sizeof_rp_pkt_hdr in Hlen; lia).
    pose proof (rp_memory_master_read_run p m Hg Hlen32) as Hr.
    cbv zeta in Hr.
    rewrite (sent_by_app _ _ _ _ _ Hr eq_refl).
    unfold slave_response, rp_encode_read_resp. cbn [is_from_device fst].
    rewrite receive_encoded_busaccess. eexists. split; [reflexivity|].
    cbn [pkt ba_hdr hdr_len].
    rewrite length_app, length_busaccess_bytes, length_mem_load.
    rewrite (u32_small (len (pkt p))) by lia. rewrite u32_small.
    + unfold sizeof_rp_pkt_busaccess, sizeof_rp_pkt_hdr. lia.
    + unfold sizeof_rp_pkt_busaccess, sizeof_rp_pkt_hdr in *. lia.
  - intros p m Hg Hlen.
    pose proof (rp_memory_master_write_run p m Hg Hlen) as Hw.
    cbv zeta in Hw.
    rewrite (sent_by_app _ _ _ _ _ Hw eq_refl).
    unfold slave_response, rp_encode_write_resp. cbn [is_from_device fst].
    match goal with
    | |- context [receive_busaccess (busaccess_bytes ?x)] =>
        replace (receive_busaccess (busaccess_bytes x))
          with (receive_busaccess (busaccess_bytes x ++ []))
          by now rewrite app_nil_r
    end.
    rewrite receive_encoded_busaccess. eexists. split; [reflexivity|].
    cbn [pkt ba_hdr hdr_len]. rewrite length_busaccess_bytes.
    unfold sizeof_rp_pkt_busaccess, sizeof_rp_pkt_hdr. reflexivity.
  - intros s irq level m.
    pose proof (rp_gpio_handler_run m s irq level) as Hh. cbv zeta in Hh.
    rewrite (sent_by_app _ _ _ _ _ Hh eq_refl).
    unfold gpio_packet. rewrite receive_encoded_interrupt.
    eexists. split; [reflexivity|].
    cbn [irq_hdr hdr_len]. rewrite length_interrupt_bytes.
    unfold sizeof_rp_pkt_interrupt, sizeof_rp_pkt_hdr. reflexivity.
Qed.

End Host.

(* ------------------------------------------------------------------ *)
(** * The scenarios, run on a little-endian host                        *)
(* ------------------------------------------------------------------ *)

(** Scenario A run through the model: the four-byte read of AA BB CC DD
    returns 0xFFFFFFFFDDCCBBAA. *)
Lemma rp_io_read_four_bytes_sign_extended_witness :
  (id_in_range scenario_A_machine
   /\ rsp_mutex scenario_A_machine = false
   /\ rsp_inbox scenario_A_machine = [scenario_A_response]
   /\ hdr_id (ba_hdr (pkt scenario_A_response)) = next_id scenario_A_machine
   /\ trailing scenario_A_response = [0xAA; 0xBB; 0xCC; 0xDD])
  /\ fst (rp_io_read false scenario_map 0x1000 4 scenario_A_machine)
     = Returned 0xFFFFFFFFDDCCBBAA
  /\ of_le (trailing scenario_A_response) = 0xDDCCBBAA
  /\ fst (rp_io_read false scenario_map 0x1000 4 scenario_A_machine)
     <> Returned (of_le (trailing scenario_A_response)).
Proof.
  assert (id_in_range scenario_A_machine) as Hid
    by (unfold id_in_range; cbn; lia).
  split; [repeat split; solve [exact (proj1 Hid) | exact (proj2 Hid) | reflexivity]|].
  apply (rp_io_read_four_bytes_sign_extended false scenario_A_machine
           scenario_map 0x1000 scenario_A_response []);
    solve [exact Hid | reflexivity].
Defined.




(** Scenario, three reconciliations with the timestamps 100, 200, 500,
    then the timestamps 500 and 480. *)
Lemma peer_clk_is_monotonic_witness :
  (increasing_from 100 [200; 500]
   /\ peer_clk (scenario_machine []) <= 100)
  /\ peer_clk (snd (reconciliations [(10, 100); (20, 200); (30, 500)]
                                    (scenario_machine []))) = 500
  /\ peer_clk (snd (reconciliations [(10, 500); (20, 480)]
                                    (scenario_machine []))) = 500.
Proof.
  assert (increasing_from 100 [200; 500]) as Hinc by (cbn; lia).
  assert (peer_clk (scenario_machine []) <= 100) as Hle by (cbn; lia).
  assert (peer_clk (scenario_machine []) <= 500) as Hle' by (cbn; lia).
  split; [split; assumption|].
  destruct peer_clk_is_monotonic as (_ & _ & Hlast & Hscenario).
  split.
  - exact (Hlast [(10, 100); (20, 200); (30, 500)] 100 [200; 500]
                 (scenario_machine []) eq_refl Hinc Hle).
  - exact (proj2 (Hscenario 10 20 (scenario_machine [])) Hle').
Defined.

(** Scenario B run through the model: the bytes of the write. *)
Lemma rp_io_write_data_little_endian_witness :
  (0 <= 2 <= 8 /\ id_in_range scenario_B_machine
   /\ rsp_mutex scenario_B_machine = false)
  /\ sent_by (rp_io_write false scenario_map 0x2000 0x1234 2) scenario_B_machine
     = busaccess_bytes false
         (write_request false scenario_map 0x2000 2 scenario_B_machine)
       ++ [0x34; 0x12]
  /\ be32_to_cpu false
       (len (write_request false scenario_map 0x2000 2 scenario_B_machine)) = 2.
Proof.
  assert (id_in_range scenario_B_machine) as Hid
    by (unfold id_in_range; cbn; lia).
  assert (0 <= 2 <= 8) as Hsz by lia.
  split; [split; [exact Hsz | split; [exact Hid | reflexivity]]|].
  destruct (rp_io_write_data_little_endian false scenario_B_machine scenario_map
              0x2000 0x1234 2 Hsz Hid eq_refl)
    as (Hsent & _ & _ & _ & Hlen & _).
  split; [exact Hsent | exact Hlen].
Defined.


(** A read request of two bytes, which carries no data, is answered with
    58 bytes; a write request of two bytes, which carries them, with
    56. *)
Lemma slave_response_data_only_for_reads_witness :
  (first_failed_guard scenario_read_request = None
   /\ busaccess_in_range (pkt scenario_read_request)
   /\ trailing scenario_read_request = [])
  /\ (first_failed_guard scenario_write_request = None
      /\ busaccess_in_range (pkt scenario_write_request)
      /\ len (pkt scenario_write_request)
         <= Z.of_nat (length (trailing scenario_write_request)))
  /\ fst (rp_memory_master_read false scenario_read_request
            (scenario_machine []))
     = Returned tt
  /\ Z.of_nat (length (sent_by (rp_memory_master_read false
                                  scenario_read_request)
                               (scenario_machine [])))
     = 58
  /\ fst (rp_memory_master_write false scenario_write_request
            (scenario_machine []))
     = Returned tt
  /\ Z.of_nat (length (sent_by (rp_memory_master_write false
                                  scenario_write_request)
                               (scenario_machine [])))
     = 56.
Proof.
  assert (busaccess_in_range (pkt scenario_read_request)) as Hr
    by (unfold busaccess_in_range; cbn; lia).
  assert (busaccess_in_range (pkt scenario_write_request)) as Hw
    by (unfold busaccess_in_range; cbn; lia).
  assert (len (pkt scenario_write_request)
          <= Z.of_nat (length (trailing scenario_write_request))) as Hl
    by (cbn; lia).
  split; [split; [reflexivity | split; [exact Hr | reflexivity]]|].
  split; [split; [reflexivity | split; [exact Hw | exact Hl]]|].
  destruct (slave_response_data_only_for_reads false
              scenario_read_request (scenario_machine []) eq_refl Hr)
    as ((Hret & _ & _ & Hrd & _) & _).
  destruct (slave_response_data_only_for_reads false
              scenario_write_request (scenario_machine []) eq_refl Hw)
    as (_ & Hwrite).
  destruct (Hwrite Hl) as (Hret' & _ & Hwr & _).
  split; [exact Hret|]. split; [exact Hrd|].
  split; [exact Hret' | exact Hwr].
Defined.

(** A streaming request and a packet with the response flag are not
    served; an incremental request fails no assertion. *)
Lemma slave_serves_incremental_requests_only_witness :
  (0 <= len (pkt scenario_streaming_request) < 2 ^ 32
   /\ 0 <= len (pkt scenario_flagged_request) < 2 ^ 32
   /\ 0 <= len (pkt scenario_incremental_request) < 2 ^ 32)
  /\ rp_cmd_rw false scenario_streaming_request DMA_DIRECTION_TO_DEVICE
       (scenario_machine [])
     = (AssertionFailed assert_width, scenario_machine [])
  /\ rp_cmd_rw false scenario_flagged_request DMA_DIRECTION_FROM_DEVICE
       (scenario_machine [])
     = (AssertionFailed assert_not_response, scenario_machine [])
  /\ fst (rp_cmd_rw false scenario_incremental_request DMA_DIRECTION_TO_DEVICE
            (scenario_machine []))
     <> AssertionFailed assert_enclen.
Proof.
  assert (0 <= len (pkt scenario_streaming_request) < 2 ^ 32) as H1
    by (cbn; lia).
  assert (0 <= len (pkt scenario_flagged_request) < 2 ^ 32) as H2
    by (cbn; lia).
  assert (0 <= len (pkt scenario_incremental_request) < 2 ^ 32) as H3
    by (cbn; lia).
  split; [split; [exact H1 | split; [exact H2 | exact H3]]|].
  split.
  { apply (proj1 (slave_serves_incremental_requests_only false
                    scenario_streaming_request DMA_DIRECTION_TO_DEVICE
                    (scenario_machine []) H1)).
    cbn. lia. }
  split.
  { destruct (slave_serves_incremental_requests_only false
                scenario_flagged_request DMA_DIRECTION_FROM_DEVICE
                (scenario_machine []) H2) as (_ & _ & Hf & _).
    apply Hf; [reflexivity | reflexivity | vm_compute; discriminate]. }
  destruct (slave_serves_incremental_requests_only false
              scenario_incremental_request DMA_DIRECTION_TO_DEVICE
              (scenario_machine []) H3) as (_ & _ & _ & _ & Hok).
  apply Hok; reflexivity.
Defined.

(** Line 2 of a device whose four lines are at 7 is set to 1, the other
    three stay at 7; a device just realized has four lines at 0. *)
Lemma rp_gpio_interrupt_sets_one_line_witness :
  (0 <= line scenario_interrupt
   /\ Z.of_nat (length (gpio_out scenario_driven_gpio))
      = num_gpios scenario_driven_gpio
   /\ 0 <= num_gpios scenario_gpio
   /\ line scenario_interrupt < num_gpios scenario_driven_gpio)
  /\ gpio_out (rp_gpio_realize scenario_gpio) = [0; 0; 0; 0]
  /\ exists rpg',
       rp_gpio_interrupt scenario_driven_gpio scenario_interrupt = Some rpg'
       /\ gpio_out rpg' = [7; 7; 1; 7].
Proof.
  assert (0 <= line scenario_interrupt) as Hl by (cbn; lia).
  assert (Z.of_nat (length (gpio_out scenario_driven_gpio))
          = num_gpios scenario_driven_gpio) as Hlen by reflexivity.
  assert (0 <= num_gpios scenario_gpio) as Hn by (cbn; lia).
  assert (line scenario_interrupt < num_gpios scenario_driven_gpio) as Hlt
    by (cbn; lia).
  split; [split; [exact Hl | split; [exact Hlen | split; [exact Hn | exact Hlt]]]|].
  split; [reflexivity|].
  destruct (rp_gpio_interrupt_sets_one_line scenario_gpio scenario_driven_gpio
              scenario_interrupt Hl Hlen) as (_ & Hset & _).
  destruct (Hset Hlt) as (rpg' & Hrun & Hout & _).
  exists rpg'. split; [exact Hrun | exact Hout].
Defined.

(* ------------------------------------------------------------------ *)
(** * More scenarios, run on a little-endian host                       *)
(* ------------------------------------------------------------------ *)

(** The bytes the devices send do not depend on the byte order of the
    host: the requests of the master and the interrupt packet of the
    GPIO device are the same bytes on a big-endian and on a
    little-endian host. *)
Theorem packets_same_on_either_host (m : Machine) (map : RemotePortMap)
    (a size : Z) (s : RemotePortGPIO) (irq level : Z) :
  busaccess_bytes true (read_request true map a size m)
  = busaccess_bytes false (read_request false map a size m)
  /\ busaccess_bytes true (write_request true map a size m)
     = busaccess_bytes false (write_request false map a size m)
  /\ interrupt_bytes true (gpio_packet true s irq level m)
     = interrupt_bytes false (gpio_packet false s irq level m).
Proof.
  destruct (packets_in_network_order true m map a size s irq level)
    as (Hr & Hw & Hi).
  destruct (packets_in_network_order false m map a size s irq level)
    as (Hr' & Hw' & Hi').
  rewrite Hr, Hr', Hw, Hw', Hi, Hi'. repeat split.
Qed.

Lemma rp_io_read_value_up_to_four_witness :
  (id_in_range scenario_B_machine
   /\ 0 <= 2 <= 4
   /\ Forall is_byte (trailing scenario_B_response)
   /\ 2 <= Z.of_nat (length (trailing scenario_B_response)))
  /\ fst (rp_io_read false scenario_map 0x2000 2 scenario_B_machine)
     = Returned 0x1234.
Proof.
  assert (id_in_range scenario_B_machine) as Hid
    by (unfold id_in_range; cbn; lia).
  assert (0 <= 2 <= 4) as Hsz by lia.
  assert (Forall is_byte (trailing scenario_B_response)) as Hb
    by (repeat constructor; unfold is_byte; lia).
  assert (2 <= Z.of_nat (length (trailing scenario_B_response))) as Hl
    by (cbn; lia).
  split; [repeat split; assumption || apply Hid|].
  destruct (rp_io_read_value_up_to_four false scenario_B_machine scenario_map
              0x2000 2 scenario_B_response [] Hid eq_refl eq_refl eq_refl
              Hsz Hb Hl) as (_ & _ & H3 & _).
  apply H3. lia.
Defined.

Lemma rp_io_read_five_bytes_or_more_witness :
  (id_in_range scenario_A_machine /\ 5 <= 5)
  /\ fst (rp_io_read false scenario_map 0x1000 5 scenario_A_machine)
     = Undefined.
Proof.
  assert (id_in_range scenario_A_machine) as Hid
    by (unfold id_in_range; cbn; lia).
  assert (5 <= 5) as H5 by lia.
  split; [split; assumption|].
  now rewrite (rp_io_read_five_bytes_or_more false scenario_A_machine
                 scenario_map 0x1000 5 scenario_A_response []
                 Hid eq_refl eq_refl eq_refl H5).
Defined.

Lemma rp_io_write_too_large_witness :
  8 < 9
  /\ rp_io_write false scenario_map 0x2000 0x1234 9 scenario_B_machine
     = (AssertionFailed assert_size, scenario_B_machine).
Proof.
  assert (8 < 9) as H by lia.
  split; [exact H|].
  exact (rp_io_write_too_large false scenario_B_machine scenario_map
           0x2000 0x1234 9 H).
Defined.

Lemma master_requests_pass_the_slave_assertions_witness :
  (id_in_range scenario_B_machine /\ rsp_mutex scenario_B_machine = false
   /\ id_in_range scenario_write_machine
   /\ rsp_mutex scenario_write_machine = false /\ 0 <= 8 <= 8)
  /\ (exists rd,
        receive_busaccess
          (sent_by (rp_io_read false scenario_map 0x2000 2) scenario_B_machine)
        = Some rd
        /\ fst (rp_cmd_rw false rd DMA_DIRECTION_TO_DEVICE (scenario_machine []))
           = Returned tt
        /\ addr (pkt rd) = 0x2000 /\ len (pkt rd) = 2)
  /\ (exists wr,
        receive_busaccess
          (sent_by (rp_io_write false scenario_map 0x2000 0x1122334455667788 8)
                   scenario_write_machine)
        = Some wr
        /\ fst (rp_cmd_rw false wr DMA_DIRECTION_FROM_DEVICE
                  (scenario_machine []))
           = Returned tt
        /\ addr (pkt wr) = 0x2000 /\ len (pkt wr) = 8
        /\ trailing wr = [0x88; 0x77; 0x66; 0x55; 0x44; 0x33; 0x22; 0x11]).
Proof.
  assert (id_in_range scenario_B_machine) as Hid
    by (unfold id_in_range; cbn; lia).
  assert (id_in_range scenario_write_machine) as Hid'
    by (unfold id_in_range; cbn; lia).
  assert (0 <= 8 <= 8) as Hsz by lia.
  split.
  { split; [exact Hid|]. split; [reflexivity|]. split; [exact Hid'|].
    split; [reflexivity | exact Hsz]. }
  split.
  - destruct (master_requests_pass_the_slave_assertions false
                scenario_B_machine (scenario_machine []) scenario_map
                0x2000 0 2 Hid eq_refl)
      as ((rd & Hrecv & _ & Hrun & _ & _ & _ & _ & _ & Haddr & Hlen & _) & _).
    exists rd. split; [exact Hrecv|]. split; [exact Hrun|].
    split; [exact Haddr | exact Hlen].
  - destruct (master_requests_pass_the_slave_assertions false
                scenario_write_machine (scenario_machine []) scenario_map
                0x2000 0x1122334455667788 8 Hid' eq_refl)
      as (_ & Hwrite).
    destruct (Hwrite Hsz)
      as (wr & Hrecv & _ & Hrun & _ & _ & _ & _ & _ & Haddr & Hlen & _ & _
          & Hdata).
    exists wr. split; [exact Hrecv|]. split; [exact Hrun|].
    split; [exact Haddr|]. split; [exact Hlen | exact Hdata].
Defined.


Lemma memory_of_scenario : memory_of_bytes (fun a => a mod 256).
Proof. intros a. unfold is_byte. apply Z.mod_pos_bound. lia. Defined.

Lemma read_served_by_slave_witness :
  (id_in_range (scenario_machine [scenario_read_response])
   /\ 0 <= 2 <= 4
   /\ receive_busaccess
        (busaccess_bytes false
           (read_request false scenario_map 0x1000 2
              (scenario_machine [scenario_read_response])))
      = Some scenario_read_request
   /\ receive_busaccess
        (sent_by (rp_memory_master_read false scenario_read_request)
                 (scenario_machine []))
      = Some scenario_read_response)
  /\ fst (rp_io_read false scenario_map 0x1000 2
            (scenario_machine [scenario_read_response]))
     = Returned 0x0100.
Proof.
  assert (id_in_range (scenario_machine [scenario_read_response])) as Hid
    by (unfold id_in_range; cbn; lia).
  assert (0 <= 2 <= 4) as Hsz by lia.
  split; [split; [exact Hid | split; [exact Hsz | split; reflexivity]]|].
  destruct (read_served_by_slave false
              (scenario_machine [scenario_read_response]) (scenario_machine [])
              scenario_map 0x1000 2 scenario_read_request
              scenario_read_response []
              Hid eq_refl Hsz memory_of_scenario eq_refl eq_refl eq_refl)
    as (_ & _ & _ & _ & Hv & _).
  exact Hv.
Defined.

Lemma write_served_by_slave_witness :
  (id_in_range (scenario_machine [scenario_write_response])
   /\ 0 <= 2 <= 8
   /\ receive_busaccess
        (busaccess_bytes false
           (write_request false scenario_map 0x1000 2
              (scenario_machine [scenario_write_response]))
         ++ le_bytes (Z.to_nat 2) 0x1234)
      = Some scenario_write_request
   /\ receive_busaccess
        (sent_by (rp_memory_master_write false scenario_write_request)
                 (scenario_machine []))
      = Some scenario_write_response)
  /\ mem_load (address_space_memory
                 (snd (rp_memory_master_write false scenario_write_request
                         (scenario_machine []))))
              (u64 (0x1000 + offset scenario_map)) (Z.to_nat 2)
     = [0x34; 0x12]
  /\ fst (rp_io_write false scenario_map 0x1000 0x1234 2
            (scenario_machine [scenario_write_response]))
     = Returned tt.
Proof.
  assert (id_in_range (scenario_machine [scenario_write_response])) as Hid
    by (unfold id_in_range; cbn; lia).
  assert (0 <= 2 <= 8) as Hsz by lia.
  split; [split; [exact Hid | split; [exact Hsz | split; reflexivity]]|].
  destruct (write_served_by_slave false
              (scenario_machine [scenario_write_response]) (scenario_machine [])
              scenario_map 0x1000 0x1234 2 scenario_write_request
              scenario_write_response []
              Hid eq_refl Hsz eq_refl eq_refl eq_refl)
    as (_ & _ & Hm & _ & _ & Hv & _).
  split; [exact Hm | exact Hv].
Defined.

Lemma slave_write_then_read_witness :
  (first_failed_guard scenario_incremental_request = None
   /\ 0 <= len (pkt scenario_incremental_request) < 2 ^ 32
   /\ len (pkt scenario_incremental_request)
      <= Z.of_nat (length (trailing scenario_incremental_request)))
  /\ sent_by (rp_memory_master_read false scenario_incremental_request)
       (snd (rp_memory_master_write false scenario_incremental_request
               (scenario_machine [])))
     = busaccess_bytes false
         (slave_response false scenario_incremental_request
                         DMA_DIRECTION_TO_DEVICE)
       ++ [1; 2; 3; 4].
Proof.
  assert (0 <= len (pkt scenario_incremental_request) < 2 ^ 32) as Hr
    by (cbn; lia).
  assert (len (pkt scenario_incremental_request)
          <= Z.of_nat (length (trailing scenario_incremental_request))) as Hl
    by (cbn; lia).
  split; [split; [reflexivity | split; [exact Hr | exact Hl]]|].
  destruct (slave_write_then_read false scenario_incremental_request
              scenario_incremental_request (scenario_machine [])
              eq_refl eq_refl Hr Hl eq_refl eq_refl)
    as (_ & _ & _ & _ & Hs & _).
  exact Hs.
Defined.

Lemma rp_memory_master_realize_maps_witness :
  (cfg_arrays scenario_cfg /\ num_maps scenario_cfg = num_offsets scenario_cfg
   /\ id_in_range scenario_write_machine
   /\ rsp_mutex scenario_write_machine = false /\ 0 <= 2 <= 8)
  /\ exists mmaps map,
       rp_memory_master_realize (parent scenario_map) scenario_cfg
       = Realized mmaps
       /\ Z.of_nat (length mmaps) = num_maps scenario_cfg
       /\ mmaps !! 1%nat = Some (map, 0x100)
       /\ offset map = 0x4000
       /\ exists req,
            receive_busaccess
              (sent_by (rp_io_write false map 0x10 0x1234 2)
                       scenario_write_machine)
            = Some req
            /\ addr (pkt req) = 0x4010
            /\ trailing req = [0x34; 0x12].
Proof.
  assert (cfg_arrays scenario_cfg) as Hc by (split; reflexivity).
  assert (id_in_range scenario_write_machine) as Hid
    by (unfold id_in_range; cbn; lia).
  assert (0 <= 2 <= 8) as Hsz by lia.
  split.
  { split; [exact Hc|]. split; [reflexivity|]. split; [exact Hid|].
    split; [reflexivity | exact Hsz]. }
  destruct (proj2 (rp_memory_master_realize_maps false (parent scenario_map)
                     scenario_cfg Hc) eq_refl)
    as (mmaps & Hrun & Hlen & Hmaps).
  destruct (Hmaps 1%nat 0x4000 0x100 eq_refl eq_refl)
    as (map & Hmap & Heq & Haccess).
  destruct (Haccess 0x10 0x1234 2 scenario_write_machine Hid eq_refl)
    as (_ & Hwrite).
  destruct (Hwrite Hsz) as (req & Hrecv & _ & Haddr & _ & _ & Hdata).
  exists mmaps, map. split; [exact Hrun|]. split; [exact Hlen|].
  split; [exact Hmap|].
  split; [rewrite Heq; reflexivity|].
  exists req. split; [exact Hrecv|]. split; [exact Haddr | exact Hdata].
Defined.


Lemma level_changes_send_fresh_ids_witness :
  0 <= current_id scenario_gpio < 2 ^ 64
  /\ encoded_ids (calls_of (level_changes false scenario_gpio [(2, 1); (2, 0)])
                           (scenario_machine []))
     = [5; 6]
  /\ Z.of_nat (length (sent_by (level_changes false scenario_gpio
                                  [(2, 1); (2, 0)])
                               (scenario_machine [])))
     = 82.
Proof.
  assert (0 <= current_id scenario_gpio < 2 ^ 64) as Hc by (cbn; lia).
  split; [exact Hc|].
  destruct (level_changes_send_fresh_ids false scenario_gpio [(2, 1); (2, 0)]
              (scenario_machine []) Hc)
    as (_ & Hlen & Hids & _).
  split; [exact Hids | exact Hlen].
Defined.

Lemma level_change_reaches_the_peer_witness :
  (0 <= 2 < 2 ^ 32
   /\ 2 < Z.of_nat (length (gpio_out (rp_gpio_realize scenario_gpio))))
  /\ exists p rpg',
       receive_interrupt (sent_by (rp_gpio_handler false scenario_gpio 2 257)
                                  (scenario_machine [])) = Some p
       /\ rp_gpio_interrupt (rp_gpio_realize scenario_gpio) p = Some rpg'
       /\ gpio_out rpg' = [0; 0; 1; 0].
Proof.
  assert (0 <= 2 < 2 ^ 32) as Hirq by lia.
  assert (2 < Z.of_nat (length (gpio_out (rp_gpio_realize scenario_gpio))))
    as Hlt by (vm_compute; reflexivity).
  split; [split; assumption|].
  destruct (level_change_reaches_the_peer false scenario_gpio
              (rp_gpio_realize scenario_gpio) 2 257 (scenario_machine []) Hirq)
    as (p & Hp & _ & _ & _ & _ & _ & _ & _ & Hset & _).
  destruct (Hset Hlt) as (rpg' & Hrun & Hout).
  exists p, rpg'. split; [exact Hp|]. split; [exact Hrun | exact Hout].
Defined.

Lemma dispatch_interrupts_in_range_witness :
  Forall (line_in_range scenario_gpio) [scenario_interrupt; scenario_interrupt]
  /\ is_Some (dispatch_interrupts scenario_gpio
                [scenario_interrupt; scenario_interrupt]).
Proof.
  assert (Forall (line_in_range scenario_gpio)
                 [scenario_interrupt; scenario_interrupt]) as Hall
    by (repeat constructor; unfold line_in_range; cbn; lia).
  split; [exact Hall|].
  exact (proj2 (proj1 (dispatch_interrupts_in_range scenario_gpio
                         [scenario_interrupt; scenario_interrupt])) Hall).
Defined.

Lemma header_length_counts_the_payload_witness :
  (id_in_range scenario_B_machine /\ rsp_mutex scenario_B_machine = false
   /\ id_in_range scenario_write_machine
   /\ rsp_mutex scenario_write_machine = false /\ 0 <= 2 <= 8
   /\ first_failed_guard scenario_read_request = None
   /\ 0 <= len (pkt scenario_read_request)
      < 2 ^ 32 - (sizeof_rp_pkt_busaccess - sizeof_rp_pkt_hdr)
   /\ trailing scenario_read_request = []
   /\ first_failed_guard scenario_write_request = None
   /\ 0 <= len (pkt scenario_write_request)
      <= Z.of_nat (length (trailing scenario_write_request)))
  /\ (exists r,
        receive_busaccess
          (sent_by (rp_io_read false scenario_map 0x2000 2) scenario_B_machine)
        = Some r
        /\ sizeof_rp_pkt_hdr + hdr_len (ba_hdr (pkt r))
           = Z.of_nat (length (sent_by (rp_io_read false scenario_map 0x2000 2)
                                       scenario_B_machine)))
  /\ (exists r,
        receive_busaccess
          (sent_by (rp_io_write false scenario_map 0x2000 0x1234 2)
                   scenario_write_machine)
        = Some r
        /\ sizeof_rp_pkt_hdr + hdr_len (ba_hdr (pkt r))
           = Z.of_nat (length (sent_by (rp_io_write false scenario_map 0x2000
                                          0x1234 2) scenario_write_machine)))
  /\ (exists r,
        receive_busaccess
          (sent_by (rp_memory_master_read false scenario_read_request)
                   (scenario_machine []))
        = Some r
        /\ sizeof_rp_pkt_hdr + hdr_len (ba_hdr (pkt r))
           = Z.of_nat (length (sent_by (rp_memory_master_read false
                                          scenario_read_request)
                                       (scenario_machine [])))
        /\ hdr_len (ba_hdr (pkt r)) = 38)
  /\ (exists r,
        receive_busaccess
          (sent_by (rp_memory_master_write false scenario_write_request)
                   (scenario_machine []))
        = Some r
        /\ sizeof_rp_pkt_hdr + hdr_len (ba_hdr (pkt r))
           = Z.of_nat (length (sent_by (rp_memory_master_write false
                                          scenario_write_request)
                                       (scenario_machine []))))
  /\ (exists r,
        receive_interrupt
          (sent_by (rp_gpio_handler false scenario_gpio 2 1)
                   (scenario_machine []))
        = Some r
        /\ sizeof_rp_pkt_hdr + hdr_len (irq_hdr r)
           = Z.of_nat (length (sent_by (rp_gpio_handler false scenario_gpio 2 1)
                                       (scenario_machine [])))).
Proof.
  assert (id_in_range scenario_B_machine) as Hid
    by (unfold id_in_range; cbn; lia).
  assert (id_in_range scenario_write_machine) as Hid'
    by (unfold id_in_range; cbn; lia).
  assert (0 <= 2 <= 8) as Hsz by lia.
  assert (0 <= len (pkt scenario_read_request)
          < 2 ^ 32 - (sizeof_rp_pkt_busaccess - sizeof_rp_pkt_hdr)) as Hr
    by (unfold sizeof_rp_pkt_busaccess, sizeof_rp_pkt_hdr; cbn; lia).
  assert (0 <= len (pkt scenario_write_request)
          <= Z.of_nat (length (trailing scenario_write_request))) as Hl
    by (cbn; lia).
  split.
  { split; [exact Hid|]. split; [reflexivity|]. split; [exact Hid'|].
    split; [reflexivity|]. split; [exact Hsz|]. split; [reflexivity|].
    split; [exact Hr|]. split; [reflexivity|]. split; [reflexivity|].
    exact Hl. }
  destruct (header_length_counts_the_payload false)
    as (Hread & Hwrite & Hsread & Hswrite & Hgpio).
  split; [exact (Hread scenario_B_machine scenario_map 0x2000 2 Hid eq_refl)|].
  split; [exact (Hwrite scenario_write_machine scenario_map 0x2000 0x1234 2
                   Hid' eq_refl Hsz)|].
  split.
  { destruct (Hsread scenario_read_request (scenario_machine []) eq_refl Hr)
      as (r & Hrecv & Hcount & Hlen).
    exists r. split; [exact Hrecv|]. split; [exact Hcount | exact Hlen]. }
  split; [exact (Hswrite scenario_write_request (scenario_machine [])
                   eq_refl Hl)|].
  exact (Hgpio scenario_gpio 2 1 (scenario_machine [])).
Defined.
